(** * ProCESS: the genomic data provisioning layer

    A shallow embedding of [src/genomic_data_storage.cpp] and of its header
    (classes [GermlineSubject], [Account], [GermlineStorage] and
    [GenomicDataStorage]), together with the properties of the storage layer
    stated over it.

    Conventions of the embedding:
    - [std::string] is [string]; [size_t] is [N] with the wrap-around at
      [2^64] written out where the code adds to an index;
    - [std::filesystem::path] is the string of its POSIX native form;
    - the file system, the R option table, the network log and the console
      are fields of one [world] that the effectful routines thread;
    - a C++ exception is a value [Throw e] of [result]; the world survives a
      throw, as the process-wide R options and the disk do;
    - what the layer calls outside the repository (the R functions
      [download.file], [untar], [writeBin] and those of R.utils, the CSV
      reader and the chromosome parser of RACES, [std::stoul]) is given the
      behaviour the storage layer relies on; the two parsers are parameters
      of the routine that uses them;
    - paths are compared as written: no symbolic link, no dot segment and no
      repeated separator is resolved. *)

From Stdlib Require Import NArith ZArith Ascii String.
From stdpp Require Import base option strings list gmap.

Local Open Scope string_scope.
Local Open Scope list_scope.

(** ** Exceptions and results *)

Inductive exn : Type :=
| runtime_error (what : string)
| domain_error (what : string)
| out_of_range (what : string)
| filesystem_error (what : string)
| r_error (what : string).

Definition what (e : exn) : string :=
  match e with
  | runtime_error w | domain_error w | out_of_range w
  | filesystem_error w | r_error w => w
  end.

Inductive result (A : Type) : Type :=
| Ok (a : A)
| Throw (e : exn).
Arguments Ok {A} a.
Arguments Throw {A} e.

Definition rbind {A B} (r : result A) (k : A → result B) : result B :=
  match r with
  | Ok a => k a
  | Throw e => Throw e
  end.

(** [try { body } catch (std::exception&) { handler }]: every exception of
    the model derives from [std::exception]. *)
Definition try_catch {A} (body : result A) (handler : exn → result A)
    : result A :=
  match body with
  | Ok a => Ok a
  | Throw e => handler e
  end.

(** ** [std::string] *)

Module StdString.

Definition size_t_modulus : N := 2 ^ 64.
Definition npos : N := size_t_modulus - 1.

(** [a + b] on [size_t]. *)
Definition size_t_add (a b : N) : N := ((a + b) mod size_t_modulus)%N.

Definition size (s : string) : N := N.of_nat (String.length s).

Fixpoint contains (c : ascii) (s : string) : bool :=
  match s with
  | EmptyString => false
  | String a s' => if Ascii.eqb a c then true else contains c s'
  end.

Fixpoint find_from (c : ascii) (s : string) (i : N) : N :=
  match s with
  | EmptyString => npos
  | String a s' => if Ascii.eqb a c then i else find_from c s' (N.succ i)
  end.

(** [s.find(c)] *)
Definition find (s : string) (c : ascii) : N := find_from c s 0.

Fixpoint find_last_of_from (c : ascii) (s : string) (i last : N) : N :=
  match s with
  | EmptyString => last
  | String a s' =>
      find_last_of_from c s' (N.succ i) (if Ascii.eqb a c then i else last)
  end.

(** [s.find_last_of(c)] *)
Definition find_last_of (s : string) (c : ascii) : N :=
  find_last_of_from c s 0 npos.

Fixpoint drop (s : string) (n : N) : string :=
  match s with
  | EmptyString => EmptyString
  | String a s' => if (n =? 0)%N then s else drop s' (N.pred n)
  end.

Fixpoint take (s : string) (n : N) : string :=
  match s with
  | EmptyString => EmptyString
  | String a s' =>
      if (n =? 0)%N then EmptyString else String a (take s' (N.pred n))
  end.

(** [s.substr(pos, n)]: throws [std::out_of_range] when [pos > size()]. *)
Definition substr (s : string) (pos n : N) : result string :=
  if (size s <? pos)%N then Throw (out_of_range "basic_string::substr")
  else Ok (take (drop s pos) n).

(** [s.find(p) == 0] *)
Fixpoint starts_with (p s : string) : bool :=
  match p, s with
  | EmptyString, _ => true
  | String a p', String b s' => Ascii.eqb a b && starts_with p' s'
  | String _ _, EmptyString => false
  end.

(** [std::search] of [p] in [s]: does [p] occur in [s]? *)
Fixpoint occurs (p s : string) : bool :=
  starts_with p s ||
  match s with
  | EmptyString => false
  | String _ s' => occurs p s'
  end.

End StdString.

Definition dquote : string := String (ascii_of_nat 34) EmptyString.

(** [\"s\"] inside a message *)
Definition quoted (s : string) : string := dquote +:+ s +:+ dquote.

(** ** [std::filesystem::path] *)

(** A path is kept as its native string. The comparison of the C++ goes
    element by element and identifies spellings that differ as strings (a
    doubled separator, for one): two equal strings are equal paths, and
    nothing below is drawn from two strings being different. *)
Definition path : Type := string.

Definition slash : ascii := ascii_of_nat 47.

Fixpoint ends_with_slash (p : string) : bool :=
  match p with
  | EmptyString => false
  | String a EmptyString => Ascii.eqb a slash
  | String _ p' => ends_with_slash p'
  end.

Definition is_absolute (p : path) : bool :=
  match p with
  | String a _ => Ascii.eqb a slash
  | EmptyString => false
  end.

(** [has_filename()]: the path is not empty and does not end in a separator. *)
Definition has_filename (p : path) : bool :=
  match p with
  | EmptyString => false
  | _ => negb (ends_with_slash p)
  end.

(** [operator/]: an absolute right operand replaces the left one; otherwise a
    separator is added when the left operand has a filename. *)
Definition path_append (p q : path) : path :=
  if is_absolute q then q
  else if has_filename p then p +:+ String slash q
  else p +:+ q.

Infix "</>" := path_append (at level 40, left associativity).

(** [parent_path()] of a path in POSIX native form, without a root name and
    without repeated separators. *)
Definition parent_path (p : path) : path :=
  let i := StdString.find_last_of p slash in
  if (i =? StdString.npos)%N then EmptyString
  else if (i =? 0)%N then String slash EmptyString
  else StdString.take p i.

(** ** The world the storage layer acts on *)

(** The content of a regular file, as far as the consumers of the storage
    layer look at it: a text file is the list of its lines, each split into
    its tab-separated fields (what a CSV reader set to the tab delimiter
    yields); a compressed file wraps the file that its decompressor
    restores; an archive lists the directories and the files that its
    extraction creates, relative to the extraction directory; a web page
    is the list of its forms, each the list of the names of its fields. *)
#[warnings="-register-all"]
Inductive content : Type :=
| Text (lines : list (list string))
| Compressed (format : string) (inner : content)
| Archive (dirs : list path) (files : list (path * content))
| Page (forms : list (list string)).

Inductive node : Type :=
| Directory
| Regular (c : content).

(** One network transfer: a plain [download.file] call with the value of the
    R option [timeout] in effect while it runs, or a page fetched within an
    authenticated webscraping session; and the two requests that open such
    a session: the fetch of the login page and the submission of its form
    for a user. *)
Inductive transfer : Type :=
| PlainGet (url : string) (dest : path) (timeout_in_effect : Z)
| SessionGet (username : string) (url : string) (dest : path)
| SessionOpen (url : string)
| SessionSubmit (url : string) (username : string).

Record world : Type := World {
  fs : gmap path node;              (* the disk, by absolute path *)
  cwd : path;                       (* std::filesystem::current_path() *)
  timeout : Z;                      (* the R option of that name *)
  net : gmap string content;        (* what each URL serves *)
  cosmic_accounts : list (string * string);  (* credentials COSMIC accepts *)
  packages : gset string;           (* installed R packages *)
  transfers : list transfer;        (* transfers attempted so far *)
  Rcout : list string               (* what was printed on Rcpp::Rcout *)
}.

Definition set_fs (f : gmap path node) (w : world) : world :=
  World f (cwd w) (timeout w) (net w) (cosmic_accounts w) (packages w)
        (transfers w) (Rcout w).

Definition set_timeout (t : Z) (w : world) : world :=
  World (fs w) (cwd w) t (net w) (cosmic_accounts w) (packages w)
        (transfers w) (Rcout w).

Definition log_transfer (t : transfer) (w : world) : world :=
  World (fs w) (cwd w) (timeout w) (net w) (cosmic_accounts w) (packages w)
        (transfers w ++ [t]) (Rcout w).

Definition print (msg : string) (w : world) : world :=
  World (fs w) (cwd w) (timeout w) (net w) (cosmic_accounts w) (packages w)
        (transfers w) (Rcout w ++ [msg]).

(** Computations that act on the world and may throw. *)
Definition IO (A : Type) : Type := world → result A * world.

Definition ret {A} (a : A) : IO A := λ w, (Ok a, w).
Definition throw {A} (e : exn) : IO A := λ w, (Throw e, w).
Definition bind {A B} (m : IO A) (k : A → IO B) : IO B :=
  λ w, match m w with
       | (Ok a, w') => k a w'
       | (Throw e, w') => (Throw e, w')
       end.
(** A routine that only reads the world. *)
Definition reads {A} (f : world → result A) : IO A := λ w, (f w, w).
(** A routine that changes the world and cannot throw. *)
Definition writes (f : world → world) : IO unit := λ w, (Ok tt, f w).

Declare Scope io_scope.
Delimit Scope io_scope with IO.
Notation "x <- m ;; k" := (bind m (λ x, k))
  (at level 100, m at next level, right associativity) : io_scope.
Notation "m ;; k" := (bind m (λ _, k))
  (at level 100, right associativity) : io_scope.

Declare Scope result_scope.
Delimit Scope result_scope with R.
Notation "x <- m ;; k" := (rbind m (λ x, k))
  (at level 100, m at next level, right associativity) : result_scope.

(** [for (const auto& x : l) body(x);] *)
Fixpoint for_each {A} (l : list A) (body : A → IO unit) : IO unit :=
  match l with
  | [] => ret tt
  | x :: l' => (body x ;; for_each l' body)%IO
  end.

(** *** [std::filesystem] over the world *)

(** A path as the file system resolves it: a relative path is taken from
    the current directory. *)
Definition absolute (w : world) (p : path) : path :=
  if is_absolute p then p else cwd w </> p.

(** The node a path names, if any; the empty path names nothing. *)
Definition stat (w : world) (p : path) : option node :=
  match p with
  | EmptyString => None
  | _ => fs w !! absolute w p
  end.

(** [std::filesystem::exists] *)
Definition exists_ (w : world) (p : path) : bool :=
  match stat w p with Some _ => true | None => false end.

(** [std::filesystem::is_directory] *)
Definition is_directory (w : world) (p : path) : bool :=
  match stat w p with Some Directory => true | _ => false end.

(** [std::filesystem::create_directory]: an existing directory is left
    alone; the new directory needs a name and its parent to be a
    directory. *)
Definition create_directory (p : path) : IO bool :=
  λ w, match stat w p with
       | Some Directory => (Ok false, w)
       | Some (Regular _) =>
           (Throw (filesystem_error
                   ("filesystem error: cannot create directory: "
                    +:+ "File exists [" +:+ p +:+ "]")), w)
       | None =>
           if negb (String.eqb p EmptyString)
              && is_directory w (parent_path (absolute w p)) then
             (Ok true, set_fs (<[absolute w p := Directory]> (fs w)) w)
           else
             (Throw (filesystem_error
                     ("filesystem error: cannot create directory: "
                      +:+ "No such file or directory [" +:+ p +:+ "]")), w)
       end.

(** [std::filesystem::rename] onto a path that names nothing yet or a
    regular file. *)
Definition rename (old new : path) : IO unit :=
  λ w, match stat w old with
       | Some n =>
           (Ok tt,
            set_fs (<[absolute w new := n]> (delete (absolute w old) (fs w))) w)
       | None =>
           (Throw (filesystem_error
                   ("filesystem error: cannot rename: "
                    +:+ "No such file or directory [" +:+ old +:+ "] ["
                    +:+ new +:+ "]")), w)
       end.

Definition fs_exists (p : path) : IO bool := reads (λ w, Ok (exists_ w p)).

(** *** R functions reached through Rcpp *)

Definition newline : string := String (ascii_of_nat 10) EmptyString.

(** [getOption("timeout")] converted to [int] *)
Definition getOption_timeout : IO Z := reads (λ w, Ok (timeout w)).

(** [options(timeout = v)] *)
Definition options_timeout (v : Z) : IO unit := writes (set_timeout v).

(** [download.file(url, destfile, mode = "wb")]: the transfer runs under the
    timeout option in effect when it is called; it stops with an R error when
    the URL serves nothing or the destination cannot be opened. *)
Definition download_f (url : string) (destfile : path) : IO unit :=
  λ w,
    let w' := log_transfer (PlainGet url destfile (timeout w)) w in
    match net w !! url with
    | None => (Throw (r_error ("cannot open URL '" +:+ url +:+ "'")), w')
    | Some c =>
        if is_directory w (parent_path (absolute w destfile))
           && negb (is_directory w destfile) then
          (Ok tt, set_fs (<[absolute w destfile := Regular c]> (fs w')) w')
        else
          (Throw (r_error ("cannot open destfile '" +:+ destfile +:+ "'")), w')
    end.

(** [untar(tarfile, exdir)], which reads plain and compressed archives. *)
Definition untar (tarfile exdir : path) : IO unit :=
  λ w,
    let extract dirs files :=
      let fs1 := foldl (λ f d, <[absolute w (exdir </> d) := Directory]> f)
                       (fs w) dirs in
      let fs2 := foldl (λ f e, <[absolute w (exdir </> e.1) := Regular e.2]> f)
                       fs1 files in
      (Ok tt, set_fs fs2 w) in
    match stat w tarfile with
    | Some (Regular (Archive dirs files)) => extract dirs files
    | Some (Regular (Compressed _ (Archive dirs files))) => extract dirs files
    | _ => (Throw (r_error ("cannot extract '" +:+ tarfile +:+ "'")), w)
    end.

(** [Environment::namespace_env(pkg)] *)
Definition namespace_env (pkg : string) : IO string :=
  reads (λ w,
    if bool_decide (pkg ∈ packages w) then Ok pkg
    else Throw (r_error ("there is no package called '" +:+ pkg +:+ "'"))).

(** The compression format each function of R.utils undoes. *)
Definition R_utils_format (function_name : string) : option string :=
  if String.eqb function_name "gunzip" then Some "gz"
  else if String.eqb function_name "bunzip2" then Some "bz2"
  else None.

(** [R.utils::gunzip(filename, destname)] and [R.utils::bunzip2]: the
    decompressed file is written at [destname], which must not exist, and
    the compressed one is removed. *)
Definition R_utils_decompress (function_name : string)
    (filename destname : path) : IO unit :=
  λ w,
    match R_utils_format function_name, stat w filename with
    | Some fmt, Some (Regular (Compressed fmt' inner)) =>
        if String.eqb fmt fmt' && negb (exists_ w destname) then
          (Ok tt, set_fs (<[absolute w destname := Regular inner]>
                            (delete (absolute w filename) (fs w))) w)
        else (Throw (r_error ("cannot decompress '" +:+ filename +:+ "'")), w)
    | _, _ => (Throw (r_error ("cannot decompress '" +:+ filename +:+ "'")), w)
    end.

(** [writeBin(content, dest_filename)] *)
Definition writeBin (c : content) (dest_filename : path) : IO unit :=
  λ w,
    if is_directory w (parent_path (absolute w dest_filename))
       && negb (is_directory w dest_filename) then
      (Ok tt, set_fs (<[absolute w dest_filename := Regular c]> (fs w)) w)
    else
      (Throw (r_error ("cannot open file '" +:+ dest_filename +:+ "'")), w).

(** ** [RACES::IO::CSVReader], on tab-separated files *)

Module CSVReader.

Record t : Type := Reader {
  get_header : list string;
  rows : list (list string)
}.

(** [CSVReader(filename, has_header, '\t')] *)
Definition open (filename : path) (has_header : bool) (w : world) : result t :=
  match stat w filename with
  | Some (Regular (Text lines)) =>
      if has_header then
        match lines with
        | [] => Ok (Reader [] [])
        | h :: r => Ok (Reader h r)
        end
      else Ok (Reader [] lines)
  | _ => Throw (runtime_error ("Cannot open " +:+ quoted filename))
  end.

(** [row.get_field(index)] *)
Definition get_field (row : list string) (index : nat) : result string :=
  match row !! index with
  | Some f => Ok f
  | None => Throw (out_of_range "Unknown field")
  end.

End CSVReader.

(** ** The classes of the header *)

Record GermlineSubject : Type := mkGermlineSubject {
  name : string;
  population : string;
  super_population : string;
  gender : string
}.

Record Account : Type := mkAccount {
  get_username : string;
  get_password : string
}.

(** The two mutation types a signature file is stored for. *)
Inductive MutationType : Type := SBSType | IDType.

(** ** [GermlineStorage] *)

Module GermlineStorage.

Record t : Type := Make { directory : path }.

(** [GermlineStorage()] *)
Definition default : t := Make EmptyString.

Definition get_path (gs : t) : path := directory gs.

Definition get_alleles_file (gs : t) : path :=
  get_path gs </> "alleles_per_chr.csv".

Definition get_population_file (gs : t) : path :=
  get_path gs </> "population.csv".

Definition get_population_descriptions_file (gs : t) : path :=
  get_path gs </> "population_descriptions.csv".

Definition get_file (gs : t) : path :=
  get_path gs </> "germlines.csv".

Definition get_binary_file (gs : t) (subject_name : string) : path :=
  get_path gs </> ("germline_" +:+ subject_name +:+ ".dat").

Definition designed (dir : path) : string :=
  "Designed germline mutations directory " +:+ quoted dir.

(** [GermlineStorage(const std::filesystem::path& directory)] *)
Definition construct (dir : path) (w : world) : result t :=
  let gs := Make dir in
  if negb (exists_ w dir) then
    Throw (runtime_error (designed dir +:+ " does not exist."))
  else if negb (is_directory w dir) then
    Throw (runtime_error (designed dir +:+ " is not a " +:+ "directory."))
  else if negb (exists_ w (get_file gs)) then
    Throw (runtime_error (designed dir +:+ " does not "
                          +:+ "contains the file "
                          +:+ quoted "germline.csv" +:+ "."))
  else if negb (exists_ w (get_population_file gs)) then
    Throw (runtime_error (designed dir +:+ " does not "
                          +:+ "contains the file "
                          +:+ quoted "population.csv" +:+ "."))
  else if negb (exists_ w (get_population_descriptions_file gs)) then
    Throw (runtime_error (designed dir +:+ " does not "
                          +:+ "contains the file "
                          +:+ quoted ("population_descr" +:+ "iptions.csv")
                          +:+ "."))
  else if negb (exists_ w (get_alleles_file gs)) then
    Throw (runtime_error (designed dir +:+ " does not "
                          +:+ "contains the file "
                          +:+ quoted ("alleles_per_chr." +:+ "csv") +:+ "."))
  else Ok gs.

Fixpoint get_population_rows (rs : list (list string))
    (s_list : list GermlineSubject) : result (list GermlineSubject) :=
  match rs with
  | [] => Ok s_list
  | row :: rs' =>
      (f0 <- CSVReader.get_field row 0 ;;
       f1 <- CSVReader.get_field row 1 ;;
       f2 <- CSVReader.get_field row 2 ;;
       f3 <- CSVReader.get_field row 3 ;;
       get_population_rows rs' (s_list ++ [mkGermlineSubject f0 f1 f2 f3]))%R
  end.

Definition get_population (gs : t) (w : world)
    : result (list GermlineSubject) :=
  (csv_reader <- CSVReader.open (get_population_file gs) true w ;;
   get_population_rows (CSVReader.rows csv_reader) [])%R.

Definition not_available (subject_name : string) : exn :=
  runtime_error ("Germline subject " +:+ quoted subject_name
                 +:+ " not available.").

Fixpoint get_subject_rows (rs : list (list string))
    (subject_name : string) : result GermlineSubject :=
  match rs with
  | [] => Throw (not_available subject_name)
  | row :: rs' =>
      (f <- CSVReader.get_field row 0 ;;
       if String.eqb f subject_name then
         (f0 <- CSVReader.get_field row 0 ;;
          f1 <- CSVReader.get_field row 1 ;;
          f2 <- CSVReader.get_field row 2 ;;
          f3 <- CSVReader.get_field row 3 ;;
          Ok (mkGermlineSubject f0 f1 f2 f3))
       else get_subject_rows rs' subject_name)%R
  end.

Definition get_subject (gs : t) (subject_name : string) (w : world)
    : result GermlineSubject :=
  (csv_reader <- CSVReader.open (get_population_file gs) true w ;;
   get_subject_rows (CSVReader.rows csv_reader) subject_name)%R.

(** [std::find(header.begin(), header.end(), gender) - header.begin()],
    or [None] for [header.end()]. *)
Fixpoint find_index (header : list string) (gender : string) : option nat :=
  match header with
  | [] => None
  | h :: header' =>
      if String.eqb h gender then Some 0
      else S <$> find_index header' gender
  end.

(** [std::map::insert]: a key already present keeps its value. *)
Definition map_insert (k v : N) (m : gmap N N) : gmap N N :=
  match m !! k with
  | Some _ => m
  | None => <[k := v]> m
  end.

Section Alleles.

(** [RACES::Mutations::GenomicPosition::stochr] and [std::stoul], which
    live outside this repository: a chromosome identifier, respectively
    an unsigned number, or the exception the parser throws. *)
Variable stochr : string → result N.
Variable stoul : string → result N.

Fixpoint get_alleles_rows (rs : list (list string)) (index : nat)
    (alleles_per_chromosome : gmap N N) : result (gmap N N) :=
  match rs with
  | [] => Ok alleles_per_chromosome
  | row :: rs' =>
      (name0 <- CSVReader.get_field row 0 ;;
       chr_id <- stochr name0 ;;
       field <- CSVReader.get_field row index ;;
       count <- stoul field ;;
       get_alleles_rows rs' index
         (map_insert chr_id count alleles_per_chromosome))%R
  end.

Definition get_alleles_per_chromosome (gs : t) (gender : string)
    (w : world) : result (gmap N N) :=
  (csv_reader <- CSVReader.open (get_alleles_file gs) true w ;;
   match find_index (CSVReader.get_header csv_reader) gender with
   | None => Throw (runtime_error ("Unknown gender " +:+ gender +:+ "."))
   | Some index =>
       get_alleles_rows (CSVReader.rows csv_reader) index ∅
   end)%R.

End Alleles.

End GermlineStorage.

(** ** The free functions of [genomic_data_storage.cpp] *)

Definition download_list : Type := list (string * path).

(** *** [COSMIC_site_regex]

    The pattern reads: beginning of the text, [https://], a group of any
    number of characters among letters, digits, underscore and hyphen, then
    any character, [sanger], any character, [ac], any character, [uk]. *)

Definition in_range (lo hi : nat) (c : ascii) : bool :=
  (lo <=? nat_of_ascii c)%nat && (nat_of_ascii c <=? hi)%nat.

(** The bracket expression of the group. *)
Definition host_class (c : ascii) : bool :=
  in_range 97 122 c || in_range 65 90 c || in_range 48 57 c
  || Ascii.eqb c "_" || Ascii.eqb c "-".

(** The dot of the pattern: any character but a line terminator. *)
Definition dot (c : ascii) : bool :=
  negb (Nat.eqb (nat_of_ascii c) 10 || Nat.eqb (nat_of_ascii c) 13).

Definition lit (a : ascii) : ascii → bool := Ascii.eqb a.

(** What follows the group, atom by atom; a dot of the pattern matches any
    character. *)
Definition COSMIC_site_tail : list (ascii → bool) :=
  [dot; lit "s"; lit "a"; lit "n"; lit "g"; lit "e"; lit "r";
   dot; lit "a"; lit "c"; dot; lit "u"; lit "k"].

Fixpoint match_atoms (atoms : list (ascii → bool)) (s : string) : bool :=
  match atoms, s with
  | [], _ => true
  | p :: atoms', String c s' => p c && match_atoms atoms' s'
  | _ :: _, EmptyString => false
  end.

(** The starred group followed by the tail: the star may stop after any
    number of characters of the class. *)
Fixpoint match_host_then_tail (s : string) : bool :=
  match_atoms COSMIC_site_tail s ||
  match s with
  | String c s' => host_class c && match_host_then_tail s'
  | EmptyString => false
  end.

Fixpoint strip_prefix (p s : string) : option string :=
  match p, s with
  | EmptyString, _ => Some s
  | String a p', String b s' =>
      if Ascii.eqb a b then strip_prefix p' s' else None
  | String _ _, EmptyString => None
  end.

(** [std::regex_search(src, COSMIC_site_regex)]; the pattern is anchored at
    the beginning of [src]. *)
Definition COSMIC_site_regex_search (src : string) : bool :=
  match strip_prefix "https://" src with
  | Some rest => match_host_then_tail rest
  | None => false
  end.

Fixpoint signatures_from_COSMIC (dl : download_list) : bool :=
  match dl with
  | [] => false
  | (src, dst) :: dl' =>
      if COSMIC_site_regex_search src then true else signatures_from_COSMIC dl'
  end.

(** *** [download_COSMIC] *)

Definition COSMIC_account_required : string :=
  "Since April 2nd, 2025, COSMIC site (https://cancer.sanger.ac.uk/cosmic/)"
  +:+ newline
  +:+ "requires an account. Create an account, download SBS and ID mutation "
  +:+ "signature" +:+ newline
  +:+ "files, and pass them as parameters to `MutationEngine()` call. In "
  +:+ "alternative," +:+ newline
  +:+ "provide COSMIC account details to `MutationEngine()` and let ProCESS "
  +:+ "download" +:+ newline
  +:+ "the signature files." +:+ newline.

Definition cosmic_page : string := "https://cancer.sanger.ac.uk/cosmic/login".

(** [rvest::session(url)]: the request for the page, which stops with an R
    error when the URL serves nothing. *)
Definition rvest_session (url : string) : IO content :=
  (writes (log_transfer (SessionOpen url)) ;;
   served <- reads (λ w, Ok (net w !! url)) ;;
   match served with
   | None => throw (r_error ("cannot open the session at '" +:+ url +:+ "'"))
   | Some c => ret c
   end)%IO.

(** [rvest::html_form(session)]: the forms of the page of the session. *)
Definition html_form (c : content) : list (list string) :=
  match c with
  | Page forms => forms
  | _ => []
  end.

(** [rvest::html_form_set(form, email = username, pass = password)]: the
    form must hold both fields. *)
Definition html_form_set (form : list string) : IO unit :=
  if bool_decide ("email" ∈ form) && bool_decide ("pass" ∈ form) then ret tt
  else throw (r_error "Can't set value of fields that don't exist").

(** [rvest::session_submit(session, form)] with the action set to [url]:
    the request that submits the credentials; it answers whether the reply
    holds the text [error while logging], which the site sends for
    credentials it does not accept. *)
Definition session_submit (url username password : string) : IO bool :=
  (writes (log_transfer (SessionSubmit url username)) ;;
   reads (λ w, Ok (negb (bool_decide
                           ((username, password) ∈ cosmic_accounts w)))))%IO.

(** The R function that [download_COSMIC] builds from [r_code] and calls:
    it needs the package rvest, opens a session on the login page, fills
    and submits the second form of that page, and fetches every file of the
    list within the session. *)
Definition COSMIC_session (username password : string) (d_list : download_list)
    : IO unit :=
  (rvest <- reads (λ w, Ok (bool_decide ("rvest" ∈ packages w))) ;;
   if negb rvest then
     throw (r_error ("The package " +:+ quoted "rvest"
                     +:+ " is mandatory to download  signatures from COSMIC."))
   else
   cosmic_session <- rvest_session cosmic_page ;;
   login_form <-
     match html_form cosmic_session !! 1%nat with
     | None => throw (r_error "subscript out of bounds")
     | Some form => ret form
     end ;;
   html_form_set login_form ;;
   error_while_logging <- session_submit cosmic_page username password ;;
   if error_while_logging then throw (r_error "Wrong COSMIC username/password")
   else
   for_each d_list (λ e,
     writes (log_transfer (SessionGet username e.1 e.2)) ;;
     served <- reads (λ w, Ok (net w !! e.1)) ;;
     match served with
     | None =>
         throw (r_error ("Cannot download file at " +:+ quoted e.1 +:+ "."))
     | Some c => writeBin c e.2
     end))%IO.

Definition download_COSMIC (COSMIC_account : option Account)
    (dl : download_list) : IO unit :=
  match COSMIC_account with
  | None => throw (r_error COSMIC_account_required)
  | Some account =>
      COSMIC_session (get_username account) (get_password account) dl
  end.

(** *** [download_file(url, dest_filename)] *)

Definition download_file (url : string) (dest_filename : path) : IO unit :=
  (parent_exists <- fs_exists (parent_path dest_filename) ;;
   (if negb parent_exists then
      (_ <- create_directory (parent_path dest_filename) ;; ret tt)
    else ret tt) ;;
   (* get default timeout option *)
   timeout <- getOption_timeout ;;
   (* raise the timeout to 1000 at least *)
   options_timeout (Z.max 1000 timeout) ;;
   (* download the file *)
   download_f url dest_filename ;;
   (* revert to the default timeout *)
   options_timeout timeout)%IO.

(** ** [GenomicDataStorage] *)

Module GenomicDataStorage.

Record t : Type := Make {
  directory : path;
  germline_storage : GermlineStorage.t;
  reference_src : string;
  SBS_signatures_src : string;
  indel_signatures_src : string;
  drivers_src : string;
  passenger_CNAs_src : string;
  germline_src : string
}.

Definition get_directory (st : t) : path := directory st.

Definition get_germline_storage (st : t) : GermlineStorage.t :=
  germline_storage st.

Definition protocols : list string := ["ftp://"; "http://"; "https://"].

Fixpoint is_an_URL_among (ps : list string) (reference : string) : bool :=
  match ps with
  | [] => false
  | protocol :: ps' =>
      if StdString.starts_with protocol reference then true
      else is_an_URL_among ps' reference
  end.

Definition is_an_URL (reference : string) : bool :=
  is_an_URL_among protocols reference.

Definition not_valid_URL (url : string) : exn :=
  domain_error (quoted url +:+ " is not a valid URL.").

Definition get_destination_path (st : t) (url : string) : result path :=
  try_catch
    (let name_occurrence :=
       StdString.size_t_add (StdString.find_last_of url "/") 1 in
     filename <- StdString.substr url name_occurrence StdString.npos ;;
     let question_occurrence := StdString.find filename "?" in
     filename <-
       (if negb (question_occurrence =? StdString.npos)%N then
          StdString.substr filename 0 question_occurrence
        else Ok filename) ;;
     Ok (get_directory st </> filename))%R
    (λ e, Throw (not_valid_URL url)).

Definition decompressors : gmap string string :=
  {[ "gz" := "gunzip"; "bz2" := "bunzip2" ]}.

Definition reference_storage_path (st : t) : path :=
  get_directory st </> "reference.fasta".

Definition signatures_storage_path (st : t) (ty : MutationType) : path :=
  match ty with
  | SBSType => get_directory st </> "SBS_signatures.txt"
  | IDType => get_directory st </> "indel_signatures.txt"
  end.

Definition get_signatures_src (st : t) (ty : MutationType) : string :=
  match ty with
  | SBSType => SBS_signatures_src st
  | IDType => indel_signatures_src st
  end.

Definition driver_mutations_storage_path (st : t) : path :=
  get_directory st </> "drivers.txt".

Definition passenger_CNAs_storage_path (st : t) : path :=
  get_directory st </> "passenger_CNAs.txt".

Definition germline_storage_path (st : t) : path :=
  get_directory st </> "germline_data".

(** *** The resolved-path accessors *)

Definition get_reference_path (st : t) (w : world) : path :=
  if exists_ w (reference_src st) then reference_src st
  else reference_storage_path st.

Definition get_signatures_path (st : t) (ty : MutationType) (w : world)
    : string :=
  if exists_ w (get_signatures_src st ty) then get_signatures_src st ty
  else signatures_storage_path st ty.

Definition get_passenger_CNAs_path (st : t) (w : world) : path :=
  if exists_ w (passenger_CNAs_src st) then passenger_CNAs_src st
  else passenger_CNAs_storage_path st.

Definition get_driver_mutations_path (st : t) (w : world) : path :=
  if exists_ w (drivers_src st) then drivers_src st
  else driver_mutations_storage_path st.

Definition get_germline_path (st : t) (w : world) : path :=
  if exists_ w (germline_src st) then germline_src st
  else germline_storage_path st.

(** *** Retrieval *)

(** [::download_file], the free function that the member of the same name
    hides. *)
Local Abbreviation global_download_file := download_file (only parsing).

(** [GenomicDataStorage::download_file(url)] *)
Definition download_file (st : t) (url : string) : IO path :=
  (dest_filename <- reads (λ _, get_destination_path st url) ;;
   global_download_file url dest_filename ;;
   ret dest_filename)%IO.

Definition collect_signatures_download_list (st : t) (ty : MutationType)
    (dl : download_list) (w : world) : result download_list :=
  let dst_filename := signatures_storage_path st ty in
  if exists_ w dst_filename then Ok dl
  else
    let source := get_signatures_src st ty in
    if exists_ w source then Ok dl
    else if negb (is_an_URL source) then
      Throw (runtime_error ("Signature file " +:+ quoted source
                            +:+ " does not exists."))
    else Ok (dl ++ [(source, dst_filename)]).

Definition retrieve_signatures (st : t) (COSMIC_account : option Account)
    : IO unit :=
  (dl <- reads (collect_signatures_download_list st SBSType []) ;;
   dl <- reads (collect_signatures_download_list st IDType dl) ;;
   writes (print "Downloading signature files...") ;;
   (if signatures_from_COSMIC dl then download_COSMIC COSMIC_account dl
    else for_each dl (λ e, global_download_file e.1 e.2)) ;;
   writes (print "Signature file downloaded"))%IO.

(** The condition of the renaming branch, as the source writes it: the
    suffix equals [fa] and the suffix equals [fasta]. *)
Definition is_fasta_suffix (suffix : string) : bool :=
  String.eqb suffix "fa" && String.eqb suffix "fasta".

Definition retrieve_reference (st : t) : IO path :=
  (src_exists <- fs_exists (reference_src st) ;;
   if negb (is_an_URL (reference_src st)) && negb src_exists then
     throw (runtime_error ("Designed reference genome file "
                           +:+ quoted (reference_src st)
                           +:+ " does not exists."))
   else
   reference_filename <- reads (λ w, Ok (get_reference_path st w)) ;;
   cached <- fs_exists reference_filename ;;
   if cached then ret reference_filename
   else
   writes (print "Downloading reference genome...") ;;
   downloaded_file <- download_file st (reference_src st) ;;
   writes (print "Reference genome downloaded") ;;
   suffix <- reads (λ _,
     StdString.substr downloaded_file
       (StdString.size_t_add (StdString.find_last_of downloaded_file ".") 1)
       StdString.npos) ;;
   if is_fasta_suffix suffix then
     rename downloaded_file reference_filename ;;
     ret reference_filename
   else
     writes (print "Decompressing reference file...") ;;
     match decompressors !! suffix with
     | None => throw (runtime_error ("Unknown suffix " +:+ quoted suffix))
     | Some decompressor =>
         _ <- namespace_env "R.utils" ;;
         R_utils_decompress decompressor downloaded_file reference_filename ;;
         writes (print "done") ;;
         ret reference_filename
     end)%IO.

Definition retrieve_drivers (st : t) : IO unit :=
  (src_exists <- fs_exists (drivers_src st) ;;
   if src_exists then ret tt
   else
   src_exists <- fs_exists (drivers_src st) ;;
   if negb (is_an_URL (drivers_src st)) && negb src_exists then
     throw (runtime_error ("Designed driver mutations file "
                           +:+ quoted (drivers_src st) +:+ " does not exists."))
   else
   mutations_filename <- reads (λ w, Ok (get_driver_mutations_path st w)) ;;
   cached <- fs_exists mutations_filename ;;
   if cached then ret tt
   else
   writes (print "Downloading driver mutation file...") ;;
   global_download_file (drivers_src st) mutations_filename ;;
   writes (print "Driver mutation file downloaded"))%IO.

Definition retrieve_passenger_CNAs (st : t) : IO unit :=
  (src_exists <- fs_exists (passenger_CNAs_src st) ;;
   if src_exists then ret tt
   else if negb (is_an_URL (passenger_CNAs_src st)) then
     throw (runtime_error ("Designed passenger CNAs file "
                           +:+ quoted (passenger_CNAs_src st)
                           +:+ " does not exists."))
   else
   let passenger_CNAs_filename := passenger_CNAs_storage_path st in
   cached <- fs_exists passenger_CNAs_filename ;;
   if cached then ret tt
   else
   writes (print "Downloading passenger CNAs file...") ;;
   global_download_file (passenger_CNAs_src st) passenger_CNAs_filename ;;
   writes (print "Passenger CNAs file downloaded"))%IO.

Definition retrieve_germline (st : t) : IO unit :=
  (src_exists <- fs_exists (germline_src st) ;;
   if src_exists then ret tt
   else if negb (is_an_URL (germline_src st)) then
     throw (runtime_error ("Designed germline directory "
                           +:+ quoted (germline_src st)
                           +:+ " does not exists."))
   else
   let germline_path := germline_storage_path st in
   cached <- fs_exists (germline_path </> "germlines.csv") ;;
   if cached then ret tt
   else
   writes (print "Downloading germline mutations...") ;;
   downloaded_file <- download_file st (germline_src st) ;;
   writes (print "Germline mutations downloaded") ;;
   untar downloaded_file (directory st))%IO.

(** [std::filesystem::absolute], which refuses the empty path. *)
Definition filesystem_absolute (p : path) (w : world) : result path :=
  match p with
  | EmptyString =>
      Throw (filesystem_error "filesystem error: cannot make absolute path")
  | _ => Ok (absolute w p)
  end.

(** The constructor taking an account. The member [directory] is the
    absolute form of the parameter; the directory created is the one the
    parameter names. *)
Definition construct (COSMIC_account : option Account) (dir : string)
    (reference_source SBS_signatures_source indel_signatures_source
     driver_mutations_source passenger_CNAs_source germline_source : string)
    : IO t :=
  (abs <- reads (filesystem_absolute dir) ;;
   let st := Make abs GermlineStorage.default reference_source
                  SBS_signatures_source indel_signatures_source
                  driver_mutations_source passenger_CNAs_source
                  germline_source in
   _ <- create_directory dir ;;
   _ <- retrieve_reference st ;;
   retrieve_signatures st COSMIC_account ;;
   retrieve_drivers st ;;
   retrieve_passenger_CNAs st ;;
   retrieve_germline st ;;
   germline_path <- reads (λ w, Ok (get_germline_path st w)) ;;
   gs <- reads (GermlineStorage.construct germline_path) ;;
   ret (Make abs gs reference_source SBS_signatures_source
             indel_signatures_source driver_mutations_source
             passenger_CNAs_source germline_source))%IO.

(** The constructor without an account delegates with a null pointer. *)
Definition construct_anonymous (dir : string)
    (reference_source SBS_signatures_source indel_signatures_source
     driver_mutations_source passenger_CNAs_source germline_source : string)
    : IO t :=
  construct None dir reference_source SBS_signatures_source
            indel_signatures_source driver_mutations_source
            passenger_CNAs_source germline_source.

(** [save_sources()]: the stream writes nothing when the file cannot be
    opened. *)
Definition save_sources (st : t) : IO unit :=
  writes (λ w,
    let file := get_directory st </> "sources.csv" in
    if is_directory w (parent_path (absolute w file))
       && negb (is_directory w file) then
      set_fs (<[absolute w file :=
                Regular (Text [["reference"; reference_src st];
                               ["indel"; indel_signatures_src st];
                               ["SBS"; SBS_signatures_src st];
                               ["drivers"; drivers_src st];
                               ["passenger_CNAs"; passenger_CNAs_src st];
                               ["germline"; germline_src st]])]> (fs w)) w
    else w).

End GenomicDataStorage.

(** ** Relations between the world a routine finds and the one it leaves *)

(** [R] relates every world in which [m] is run to the world that [m]
    leaves when it returns. *)
Definition on_return {A} (R : world → world → Prop) (m : IO A) : Prop :=
  ∀ w a w', m w = (Ok a, w') → R w w'.

(** The current directory and the timeout option are what they were. *)
Definition calm (w w' : world) : Prop :=
  cwd w' = cwd w ∧ timeout w' = timeout w.

(** Moreover every path of the disk is still there. *)
Definition grown (w w' : world) : Prop :=
  calm w w' ∧ ∀ p, is_Some (fs w !! p) → is_Some (fs w' !! p).

(** ** A concrete installation, used to run the routines *)

Module Sample.

(** A store under [/store] whose six sources are all remote. *)
Definition store : GenomicDataStorage.t :=
  GenomicDataStorage.Make "/store" GermlineStorage.default
    "https://host/genome.fa"
    "https://cancer.sanger.ac.uk/signatures/SBS.txt"
    "https://zenodo.org/records/1/ID.txt?download=1"
    "https://host/drivers.txt"
    "https://host/cnas.txt"
    "https://host/germline.tar.gz".

Definition genome : content := Text [[">chr1"]; ["ACGT"]].

(** A disk holding the storage directory only; the option [timeout] has
    the default value of R. *)
Definition empty_disk : world :=
  World {[ "/" := Directory; "/store" := Directory ]} "/" 60
        {[ "https://host/genome.fa" := genome;
           "https://host/genome.fasta" := genome;
           "https://host/genome.fa.gz" := Compressed "gz" genome ]}
        [] {[ "R.utils" ]} [] [].


(** The store of [store] with another reference source. *)
Definition store_with_reference (reference_source : string)
    : GenomicDataStorage.t :=
  GenomicDataStorage.Make "/store" GermlineStorage.default
    reference_source
    (GenomicDataStorage.SBS_signatures_src store)
    (GenomicDataStorage.indel_signatures_src store)
    (GenomicDataStorage.drivers_src store)
    (GenomicDataStorage.passenger_CNAs_src store)
    (GenomicDataStorage.germline_src store).


(** *** A germline dataset *)

Definition germline : GermlineStorage.t :=
  GermlineStorage.Make "/store/germline_data".

Definition population_lines : list (list string) :=
  [["sample"; "pop"; "super_pop"; "gender"];
   ["HG00096"; "GBR"; "EUR"; "male"];
   ["HG00097"; "GBR"; "EUR"; "female"];
   ["NA18525"; "CHB"; "EAS"; "male"]].

(** The alleles of chromosome 1 are given twice. *)
Definition alleles_lines : list (list string) :=
  [["chr"; "male"; "female"];
   ["1"; "2"; "2"];
   ["X"; "1"; "2"];
   ["1"; "7"; "7"];
   ["Y"; "1"; "0"]].

Definition germline_files (population : list (list string))
    : gmap path node :=
  {[ "/" := Directory;
     "/store" := Directory;
     "/store/germline_data" := Directory;
     "/store/germline_data/germlines.csv" := Regular (Text []);
     "/store/germline_data/population.csv" := Regular (Text population);
     "/store/germline_data/population_descriptions.csv" := Regular (Text []);
     "/store/germline_data/alleles_per_chr.csv" :=
       Regular (Text alleles_lines) ]}.

(** A disk with a complete germline directory. *)
Definition germline_disk : world :=
  World (germline_files population_lines) "/" 60 ∅ [] ∅ [] [].

(** The same disk with one file removed. *)
Definition without (p : path) (w : world) : world :=
  set_fs (delete p (fs w)) w.

(** A population file in which two rows bear the same name. *)
Definition twins_disk : world :=
  World (germline_files [["sample"; "pop"; "super_pop"; "gender"];
                         ["HG00096"; "GBR"; "EUR"; "male"];
                         ["HG00096"; "CHB"; "EAS"; "female"]])
        "/" 60 ∅ [] ∅ [] [].

(** Stand-ins for the two parsers of the alleles file: decimal numbers,
    with the sex chromosomes numbered after the autosomes. *)
Fixpoint decimal (s : string) (acc : N) : result N :=
  match s with
  | EmptyString => Ok acc
  | String c s' =>
      if in_range 48 57 c then
        decimal s' (10 * acc + N.of_nat (nat_of_ascii c - 48))%N
      else Throw (runtime_error "invalid_argument")
  end.

Definition stoul (s : string) : result N :=
  match s with
  | EmptyString => Throw (runtime_error "invalid_argument")
  | _ => decimal s 0
  end.

Definition stochr (s : string) : result N :=
  if String.eqb s "X" then Ok 23%N
  else if String.eqb s "Y" then Ok 24%N
  else stoul s.

(** The alleles of a male subject according to [alleles_lines]. *)
Definition male_alleles : gmap N N := {[ 1 := 2; 23 := 1; 24 := 1 ]}%N.

(** *** Disks for the retrieval routines *)

Definition signatures : content := Text [["SBS1"; "0.1"]].

(** The login page of COSMIC: a search form and the login form. *)
Definition login_page : content := Page [["q"]; ["email"; "pass"]].

(** A network that serves the signature files as well and the login page
    of COSMIC, a COSMIC account and the package that the COSMIC session
    needs. *)
Definition online_disk : world :=
  World {[ "/" := Directory; "/store" := Directory ]} "/" 60
        {[ "https://cancer.sanger.ac.uk/cosmic/login" := login_page;
           "https://cancer.sanger.ac.uk/signatures/SBS.txt" := signatures;
           "https://zenodo.org/records/1/SBS.txt" := signatures;
           "https://zenodo.org/records/1/ID.txt?download=1" := signatures ]}
        [("user@host", "secret")] {[ "R.utils"; "rvest" ]} [] [].

(** The store of [store] with the SBS signatures taken outside COSMIC. *)
Definition store_without_COSMIC : GenomicDataStorage.t :=
  GenomicDataStorage.Make "/store" GermlineStorage.default
    (GenomicDataStorage.reference_src store)
    "https://zenodo.org/records/1/SBS.txt"
    (GenomicDataStorage.indel_signatures_src store)
    (GenomicDataStorage.drivers_src store)
    (GenomicDataStorage.passenger_CNAs_src store)
    (GenomicDataStorage.germline_src store).

(** A store whose six sources are files of the disk [local_disk]. *)
Definition local_store : GenomicDataStorage.t :=
  GenomicDataStorage.Make "/store" GermlineStorage.default
    "/data/genome.fa" "/data/SBS.txt" "/data/ID.txt"
    "/data/drivers.txt" "/data/cnas.txt" "/data/germline".

Definition local_disk : world :=
  World {[ "/" := Directory; "/store" := Directory; "/data" := Directory;
           "/data/genome.fa" := Regular genome;
           "/data/SBS.txt" := Regular signatures;
           "/data/ID.txt" := Regular signatures;
           "/data/drivers.txt" := Regular (Text []);
           "/data/cnas.txt" := Regular (Text []);
           "/data/germline" := Directory ]} "/" 60 ∅ [] ∅ [] [].

(** A storage directory in which every dataset is cached, the germline
    directory holding [germlines.csv] and nothing else. *)
Definition stale_disk : world :=
  World {[ "/" := Directory; "/store" := Directory;
           "/store/reference.fasta" := Regular genome;
           "/store/SBS_signatures.txt" := Regular signatures;
           "/store/indel_signatures.txt" := Regular signatures;
           "/store/drivers.txt" := Regular (Text []);
           "/store/passenger_CNAs.txt" := Regular (Text []);
           "/store/germline_data" := Directory;
           "/store/germline_data/germlines.csv" := Regular (Text []) ]}
        "/" 60 ∅ [] ∅ [] [].

(** *** Stores and disks for the retrieval policies *)

(** A store none of whose sources is a URL or a file of the disk. *)
Definition misconfigured_store : GenomicDataStorage.t :=
  GenomicDataStorage.Make "/store" GermlineStorage.default
    "nowhere/genome.fa" "nowhere/SBS.txt" "nowhere/ID.txt"
    "nowhere/drivers.txt" "nowhere/cnas.txt" "nowhere/germline".

(** A network that serves the driver and passenger files. *)
Definition mutations_disk : world :=
  World {[ "/" := Directory; "/store" := Directory ]} "/" 60
        {[ "https://host/drivers.txt" := Text [["TP53"]];
           "https://host/cnas.txt" := Text [["chr1"; "amp"]] ]}
        [] ∅ [] [].

(** *** A network that serves every dataset *)

Definition germline_archive : content :=
  Compressed "gz"
    (Archive ["germline_data"]
       [("germline_data/germlines.csv", Text []);
        ("germline_data/population.csv", Text population_lines);
        ("germline_data/population_descriptions.csv", Text []);
        ("germline_data/alleles_per_chr.csv", Text alleles_lines)]).

Definition everything_online : world :=
  World {[ "/" := Directory ]} "/" 60
        {[ "https://host/genome.fa.gz" := Compressed "gz" genome;
           "https://zenodo.org/records/1/SBS.txt" := signatures;
           "https://zenodo.org/records/1/ID.txt?download=1" := signatures;
           "https://host/drivers.txt" := Text [["TP53"]];
           "https://host/cnas.txt" := Text [["chr1"; "amp"]];
           "https://host/germline.tar.gz" := germline_archive ]}
        [] {[ "R.utils" ]} [] [].

(** The store that the constructor builds over [everything_online]. *)
Definition built_store : GenomicDataStorage.t :=
  GenomicDataStorage.Make "/store" germline
    "https://host/genome.fa.gz"
    "https://zenodo.org/records/1/SBS.txt"
    "https://zenodo.org/records/1/ID.txt?download=1"
    "https://host/drivers.txt"
    "https://host/cnas.txt"
    "https://host/germline.tar.gz".

Definition build : result GenomicDataStorage.t * world :=
  GenomicDataStorage.construct None "/store"
    "https://host/genome.fa.gz"
    "https://zenodo.org/records/1/SBS.txt"
    "https://zenodo.org/records/1/ID.txt?download=1"
    "https://host/drivers.txt"
    "https://host/cnas.txt"
    "https://host/germline.tar.gz" everything_online.

End Sample.
(** * Properties *)

(** ** Facts on [std::string] *)

Section StdStringFacts.
Import StdString.

Lemma append_nil (b : string) : EmptyString +:+ b = b.
Proof. reflexivity. Qed.

Lemma append_cons (x : ascii) (a b : string) :
  String x a +:+ b = String x (a +:+ b).
Proof. reflexivity. Qed.

Lemma app_single (a : string) (c : ascii) (b : string) :
  (a +:+ String c EmptyString) +:+ b = a +:+ String c b.
Proof.
  induction a as [|x a IH]; [reflexivity|].
  by rewrite !append_cons, IH.
Qed.

Lemma size_String (x : ascii) (s : string) : size (String x s) = N.succ (size s).
Proof. unfold size. simpl. apply Nat2N.inj_succ. Qed.

Lemma size_app (a b : string) : size (a +:+ b) = (size a + size b)%N.
Proof.
  induction a as [|x a IH]; [rewrite append_nil; unfold size; simpl; lia|].
  rewrite append_cons, !size_String, IH. lia.
Qed.


Lemma find_last_of_from_absent c s i last :
  contains c s = false → find_last_of_from c s i last = last.
Proof.
  revert i last. induction s as [|a s IH]; simpl; intros i last H; [reflexivity|].
  destruct (Ascii.eqb a c); [discriminate|]. by apply IH.
Qed.

Lemma find_last_of_from_app c pre s i last :
  ∃ last', find_last_of_from c (pre +:+ s) i last
           = find_last_of_from c s (i + size pre) last'.
Proof.
  revert i last.
  induction pre as [|a pre IH]; intros i last;
    rewrite ?append_nil, ?append_cons; simpl.
  - exists last. f_equal. unfold size. simpl. lia.
  - destruct (IH (N.succ i) (if Ascii.eqb a c then i else last)) as [l' Hl'].
    exists l'. rewrite Hl'. f_equal. rewrite size_String. lia.
Qed.

Lemma find_last_of_split c pre f :
  contains c f = false →
  find_last_of (pre +:+ String c f) c = size pre.
Proof.
  intros H. unfold find_last_of.
  destruct (find_last_of_from_app c pre (String c f) 0 npos) as [l' ->].
  simpl. rewrite Ascii.eqb_refl. by rewrite find_last_of_from_absent.
Qed.

Lemma find_last_of_absent c s :
  contains c s = false → find_last_of s c = npos.
Proof. apply find_last_of_from_absent. Qed.

Lemma find_from_absent c s i :
  contains c s = false → find_from c s i = npos.
Proof.
  revert i. induction s as [|a s IH]; simpl; intros i H; [reflexivity|].
  destruct (Ascii.eqb a c); [discriminate|]. by apply IH.
Qed.

Lemma find_from_split c a b i :
  contains c a = false →
  find_from c (a +:+ String c b) i = (i + size a)%N.
Proof.
  revert i.
  induction a as [|x a IH]; intros i H;
    rewrite ?append_nil, ?append_cons; simpl in *.
  - rewrite Ascii.eqb_refl. unfold size. simpl. lia.
  - destruct (Ascii.eqb x c); [discriminate|].
    rewrite IH by done. rewrite size_String. lia.
Qed.

Lemma drop_0 s : drop s 0 = s.
Proof. by destruct s. Qed.

Lemma drop_app pre s : drop (pre +:+ s) (size pre) = s.
Proof.
  induction pre as [|a pre IH]; rewrite ?append_nil, ?append_cons; simpl.
  - apply drop_0.
  - rewrite size_String.
    destruct (N.eqb_spec (N.succ (size pre)) 0) as [E|_]; [lia|].
    by rewrite N.pred_succ.
Qed.

Lemma take_all s n : (size s <= n)%N → take s n = s.
Proof.
  revert n. induction s as [|a s IH]; simpl; intros n H; [reflexivity|].
  rewrite size_String in H.
  destruct (N.eqb_spec n 0) as [E|_]; [lia|].
  f_equal. apply IH. lia.
Qed.

Lemma take_app a s : take (a +:+ s) (size a) = a.
Proof.
  induction a as [|x a IH]; rewrite ?append_nil, ?append_cons; simpl.
  - by destruct s.
  - rewrite size_String.
    destruct (N.eqb_spec (N.succ (size a)) 0) as [E|_]; [lia|].
    by rewrite N.pred_succ, IH.
Qed.

Lemma size_t_add_small a b :
  (a + b < size_t_modulus)%N → size_t_add a b = (a + b)%N.
Proof. intros H. unfold size_t_add. by apply N.mod_small. Qed.

(** The wrap-around the code relies on: [npos + 1] is [0]. *)
Lemma size_t_add_npos : size_t_add npos 1 = 0%N.
Proof. reflexivity. Qed.

Lemma npos_lt_modulus : (npos < size_t_modulus)%N.
Proof. reflexivity. Qed.

End StdStringFacts.

(** ** [get_destination_path] *)

Section DestinationPath.
Import StdString GenomicDataStorage.

(** Once the text after the last slash is known, the result is fixed. *)
Lemma get_destination_path_of_filename st url fname :
  substr url (size_t_add (find_last_of url "/") 1) npos = Ok fname →
  (size fname < npos)%N →
  (contains "?" fname = false →
   get_destination_path st url = Ok (get_directory st </> fname))
  ∧ (∀ a b, fname = a +:+ String "?" b → contains "?" a = false →
     get_destination_path st url = Ok (get_directory st </> a)).
Proof.
  intros Hsub Hsize. unfold get_destination_path. rewrite Hsub. simpl. split.
  - intros Hq. unfold find. rewrite find_from_absent by done.
    by rewrite N.eqb_refl.
  - intros a b -> Ha. unfold find. rewrite find_from_split by done.
    rewrite N.add_0_l.
    assert (size a < npos)%N as Hlt.
    { rewrite size_app in Hsize. lia. }
    destruct (N.eqb_spec (size a) npos) as [E|_]; [lia|]. simpl.
    unfold substr. rewrite drop_0, take_app.
    destruct (N.ltb_spec (size (a +:+ String "?" b)) 0) as [E|_]; [lia|].
    reflexivity.
Qed.

Lemma substr_after_last_slash pre fname :
  contains "/" fname = false →
  (size (pre +:+ String "/" fname) < npos)%N →
  substr (pre +:+ String "/" fname)
         (size_t_add (find_last_of (pre +:+ String "/" fname) "/") 1) npos
  = Ok fname.
Proof.
  intros Hf Hsize. rewrite find_last_of_split by done.
  rewrite size_app, size_String in Hsize.
  assert (npos < size_t_modulus)%N by apply npos_lt_modulus.
  rewrite size_t_add_small by lia.
  unfold substr. rewrite size_app, size_String.
  destruct (N.ltb_spec (size pre + N.succ (size fname)) (size pre + 1)) as [E|_]; [lia|].
  replace (pre +:+ String "/" fname) with ((pre +:+ "/") +:+ fname)
    by apply app_single.
  replace (size pre + 1)%N with (size (pre +:+ "/"))
    by (rewrite size_app; reflexivity).
  rewrite drop_app, take_all by lia. reflexivity.
Qed.

(** Without a slash [find_last_of] answers [npos], the sum wraps to [0]
    and the whole string is the file name: nothing is thrown. *)
Lemma substr_without_slash url :
  contains "/" url = false →
  (size url < npos)%N →
  substr url (size_t_add (find_last_of url "/") 1) npos = Ok url.
Proof.
  intros H Hsize. rewrite find_last_of_absent by done.
  rewrite size_t_add_npos. unfold substr.
  destruct (N.ltb_spec (size url) 0) as [E|_]; [lia|].
  rewrite drop_0, take_all by lia. reflexivity.
Qed.

(** C5, as the code has it: a source without any slash is not refused.
    [get_destination_path] returns the storage directory joined with the
    whole string, cut at its first question mark if it has one. *)
Theorem get_destination_path_without_slash st url :
  contains "/" url = false →
  (size url < npos)%N →
  (contains "?" url = false →
   get_destination_path st url = Ok (get_directory st </> url))
  ∧ (∀ a b, url = a +:+ String "?" b → contains "?" a = false →
     get_destination_path st url = Ok (get_directory st </> a)).
Proof.
  intros H Hsize.
  apply get_destination_path_of_filename; [|done].
  by apply substr_without_slash.
Qed.

Lemma get_destination_path_without_slash_witness :
  get_destination_path Sample.store "genome.fa?v=2" = Ok "/store/genome.fa".
Proof.
  apply (proj2 (get_destination_path_without_slash
                  Sample.store "genome.fa?v=2" eq_refl eq_refl)
           "genome.fa" "v=2" eq_refl eq_refl).
Defined.

(** C5 as stated fails: a string without a slash yields a path, not the
    malformed-URL error. *)
Lemma get_destination_path_without_slash_accepted :
  contains "/" "genome.fa" = false
  ∧ get_destination_path Sample.store "genome.fa" = Ok "/store/genome.fa"
  ∧ get_destination_path Sample.store "genome.fa"
    ≠ Throw (not_valid_URL "genome.fa").
Proof. split; [reflexivity|]. split; [reflexivity | discriminate]. Qed.

(** C6: for a URL with at least one slash the result is the storage
    directory joined with the text after the last slash, cut at its first
    question mark if it has one; the URL of the specification maps to
    [file.txt.gz] under the directory. *)
Theorem get_destination_path_last_segment st pre fname :
  contains "/" fname = false →
  (size (pre +:+ String "/" fname) < npos)%N →
  (contains "?" fname = false →
   get_destination_path st (pre +:+ String "/" fname)
   = Ok (get_directory st </> fname))
  ∧ (∀ a b, fname = a +:+ String "?" b → contains "?" a = false →
     get_destination_path st (pre +:+ String "/" fname)
     = Ok (get_directory st </> a))
  ∧ get_destination_path st "https://host/dir/file.txt.gz?x=1"
    = Ok (get_directory st </> "file.txt.gz").
Proof.
  intros Hf Hsize.
  assert (size fname < npos)%N as Hfs.
  { rewrite size_app, size_String in Hsize. lia. }
  destruct (get_destination_path_of_filename st (pre +:+ String "/" fname) fname)
    as [H1 H2]; [by apply substr_after_last_slash | done |].
  split; [exact H1|]. split; [exact H2|].
  apply (proj2 (get_destination_path_of_filename st
                  "https://host/dir/file.txt.gz?x=1" "file.txt.gz?x=1"
                  eq_refl eq_refl) "file.txt.gz" "x=1" eq_refl eq_refl).
Qed.

Lemma get_destination_path_last_segment_witness :
  get_destination_path Sample.store "https://zenodo.org/records/1/ID.txt?download=1"
  = Ok "/store/ID.txt".
Proof.
  apply (proj1 (proj2 (get_destination_path_last_segment
                  Sample.store "https://zenodo.org/records/1" "ID.txt?download=1"
                  eq_refl eq_refl))
           "ID.txt" "download=1" eq_refl eq_refl).
Defined.


(** A string that holds a character splits at its last occurrence. *)
Lemma split_at_last c s :
  contains c s = true →
  ∃ pre f, s = pre +:+ String c f ∧ contains c f = false.
Proof.
  induction s as [|a s IH]; simpl; [done|].
  destruct (contains c s) eqn:Hs.
  - intros _. destruct (IH eq_refl) as (pre & f & -> & Hf).
    exists (String a pre), f. by rewrite append_cons.
  - destruct (Ascii.eqb_spec a c) as [->|_]; [|done].
    intros _. by exists EmptyString, s.
Qed.

(** A string that holds a character splits at its first occurrence. *)
Lemma split_at_first c s :
  contains c s = true →
  ∃ a b, s = a +:+ String c b ∧ contains c a = false.
Proof.
  induction s as [|x s IH]; simpl; [done|].
  destruct (Ascii.eqb_spec x c) as [->|Hne].
  - intros _. by exists EmptyString, s.
  - intros Hs. destruct (IH Hs) as (a & b & -> & Ha).
    exists (String x a), b. rewrite append_cons. split; [done|]. simpl.
    by destruct (Ascii.eqb_spec x c).
Qed.

(** The handler of [get_destination_path] is never entered: on a string of
    any size that a [std::string] can have, the body returns a path. *)
Lemma get_destination_path_returns st url :
  (size url < npos)%N → ∃ p, get_destination_path st url = Ok p.
Proof.
  intros Hsize.
  assert (∃ fname, substr url (size_t_add (find_last_of url "/") 1) npos = Ok fname
                   ∧ (size fname < npos)%N) as (fname & Hsub & Hf).
  { destruct (contains "/" url) eqn:Hs.
    - destruct (split_at_last _ _ Hs) as (pre & f & -> & Hfn).
      exists f. split; [by apply substr_after_last_slash|].
      rewrite size_app, size_String in Hsize. lia.
    - exists url. split; [by apply substr_without_slash | done]. }
  destruct (get_destination_path_of_filename st url fname Hsub Hf) as [H1 H2].
  destruct (contains "?" fname) eqn:Hq.
  - destruct (split_at_first _ _ Hq) as (a & b & -> & Ha). eauto.
  - eauto.
Qed.

End DestinationPath.

(** ** [download_file] and the timeout option *)

Section DownloadTimeout.


(** C2 on a download that fails: with the default timeout of 60 and a URL
    that serves nothing, the transfer runs under 1000, [download.file]
    throws, and the routine exits with the option still at 1000. *)
Theorem download_file_error_leaves_timeout_raised :
  timeout Sample.empty_disk = 60%Z
  ∧ (download_file "https://host/absent.txt" "/store/absent.txt"
                   Sample.empty_disk).1
    = Throw (r_error "cannot open URL 'https://host/absent.txt'")
  ∧ transfers (download_file "https://host/absent.txt" "/store/absent.txt"
                             Sample.empty_disk).2
    = [PlainGet "https://host/absent.txt" "/store/absent.txt" 1000]
  ∧ timeout (download_file "https://host/absent.txt" "/store/absent.txt"
                           Sample.empty_disk).2
    = 1000%Z.
Proof. repeat split; vm_compute; reflexivity. Qed.

(** On a download that succeeds the option is back at its value. *)
Lemma download_file_success_restores_timeout :
  (download_file "https://host/genome.fa" "/store/genome.fa"
                 Sample.empty_disk).1 = Ok tt
  ∧ transfers (download_file "https://host/genome.fa" "/store/genome.fa"
                             Sample.empty_disk).2
    = [PlainGet "https://host/genome.fa" "/store/genome.fa" 1000]
  ∧ timeout (download_file "https://host/genome.fa" "/store/genome.fa"
                           Sample.empty_disk).2
    = 60%Z.
Proof. repeat split; vm_compute; reflexivity. Qed.

End DownloadTimeout.

(** ** [retrieve_reference] and the suffix of the downloaded file *)

Section ReferenceSuffix.
Import GenomicDataStorage.

(** No suffix equals both literals: the renaming branch is never taken. *)
Lemma is_fasta_suffix_false suffix : is_fasta_suffix suffix = false.
Proof.
  unfold is_fasta_suffix.
  destruct (String.eqb_spec suffix "fa") as [->|_]; reflexivity.
Qed.

(** The table holds the two compressed suffixes and nothing else. *)
Lemma decompressors_lookup suffix :
  decompressors !! suffix
  = if String.eqb suffix "gz" then Some "gunzip"
    else if String.eqb suffix "bz2" then Some "bunzip2"
    else None.
Proof.
  unfold decompressors.
  destruct (String.eqb_spec suffix "gz") as [->|Hgz]; [reflexivity|].
  destruct (String.eqb_spec suffix "bz2") as [->|Hbz]; [reflexivity|].
  rewrite lookup_insert_ne by done.
  by rewrite lookup_singleton_ne.
Qed.

(** C1 on a reference served as plain FASTA: the download of a file whose
    suffix is fa, or fasta, is not renamed to the cached name. The
    condition of the renaming branch never holds, the suffix is looked up
    among the decompressors and the routine throws, with the downloaded
    file left under its own name. *)
Theorem retrieve_reference_fasta_not_renamed :
  (∀ suffix, is_fasta_suffix suffix = false)
  ∧ (retrieve_reference (Sample.store_with_reference "https://host/genome.fa")
                        Sample.empty_disk).1
    = Throw (runtime_error ("Unknown suffix " +:+ quoted "fa"))
  ∧ fs (retrieve_reference (Sample.store_with_reference "https://host/genome.fa")
                           Sample.empty_disk).2
    = <["/store/genome.fa" := Regular Sample.genome]> (fs Sample.empty_disk)
  ∧ (retrieve_reference (Sample.store_with_reference "https://host/genome.fasta")
                        Sample.empty_disk).1
    = Throw (runtime_error ("Unknown suffix " +:+ quoted "fasta"))
  ∧ fs (retrieve_reference (Sample.store_with_reference "https://host/genome.fasta")
                           Sample.empty_disk).2
    = <["/store/genome.fasta" := Regular Sample.genome]> (fs Sample.empty_disk).
Proof.
  split; [exact is_fasta_suffix_false|].
  repeat split; vm_compute; reflexivity.
Qed.

(** A compressed reference is decompressed to the cached name, and the
    downloaded file is consumed. *)
Lemma retrieve_reference_gz :
  (retrieve_reference (Sample.store_with_reference "https://host/genome.fa.gz")
                      Sample.empty_disk).1
  = Ok "/store/reference.fasta"
  ∧ fs (retrieve_reference (Sample.store_with_reference "https://host/genome.fa.gz")
                           Sample.empty_disk).2
    = <["/store/reference.fasta" := Regular Sample.genome]> (fs Sample.empty_disk).
Proof. split; vm_compute; reflexivity. Qed.

End ReferenceSuffix.

(** ** Construction of a [GermlineStorage] *)

Section GermlineConstruction.
Import GermlineStorage.

Lemma construct_not_found dir w :
  exists_ w dir = false →
  construct dir w = Throw (runtime_error (designed dir +:+ " does not exist.")).
Proof. intros H. unfold construct. by rewrite H. Qed.

Lemma construct_not_a_directory dir w :
  exists_ w dir = true → is_directory w dir = false →
  construct dir w
  = Throw (runtime_error (designed dir +:+ " is not a directory.")).
Proof. intros H1 H2. unfold construct. by rewrite H1, H2. Qed.

(** The message for each of the three files that the constructor names as
    it checks them. *)
Lemma construct_missing_population dir w :
  is_directory w dir = true →
  exists_ w (get_file (Make dir)) = true →
  exists_ w (get_population_file (Make dir)) = false →
  construct dir w
  = Throw (runtime_error (designed dir +:+ " does not contains the file "
                          +:+ quoted "population.csv" +:+ ".")).
Proof.
  intros Hd H1 H2. unfold construct.
  assert (exists_ w dir = true) as ->.
  { unfold is_directory in Hd. unfold exists_. by destruct (stat w dir). }
  by rewrite Hd, H1, H2.
Qed.

Lemma construct_missing_descriptions dir w :
  is_directory w dir = true →
  exists_ w (get_file (Make dir)) = true →
  exists_ w (get_population_file (Make dir)) = true →
  exists_ w (get_population_descriptions_file (Make dir)) = false →
  construct dir w
  = Throw (runtime_error (designed dir +:+ " does not contains the file "
                          +:+ quoted "population_descriptions.csv" +:+ ".")).
Proof.
  intros Hd H1 H2 H3. unfold construct.
  assert (exists_ w dir = true) as ->.
  { unfold is_directory in Hd. unfold exists_. by destruct (stat w dir). }
  by rewrite Hd, H1, H2, H3.
Qed.

Lemma construct_missing_alleles dir w :
  is_directory w dir = true →
  exists_ w (get_file (Make dir)) = true →
  exists_ w (get_population_file (Make dir)) = true →
  exists_ w (get_population_descriptions_file (Make dir)) = true →
  exists_ w (get_alleles_file (Make dir)) = false →
  construct dir w
  = Throw (runtime_error (designed dir +:+ " does not contains the file "
                          +:+ quoted "alleles_per_chr.csv" +:+ ".")).
Proof.
  intros Hd H1 H2 H3 H4. unfold construct.
  assert (exists_ w dir = true) as ->.
  { unfold is_directory in Hd. unfold exists_. by destruct (stat w dir). }
  by rewrite Hd, H1, H2, H3, H4.
Qed.

Lemma construct_complete dir w :
  is_directory w dir = true →
  exists_ w (get_file (Make dir)) = true →
  exists_ w (get_population_file (Make dir)) = true →
  exists_ w (get_population_descriptions_file (Make dir)) = true →
  exists_ w (get_alleles_file (Make dir)) = true →
  construct dir w = Ok (Make dir).
Proof.
  intros Hd H1 H2 H3 H4. unfold construct.
  assert (exists_ w dir = true) as ->.
  { unfold is_directory in Hd. unfold exists_. by destruct (stat w dir). }
  by rewrite Hd, H1, H2, H3, H4.
Qed.

(** Whatever is missing, construction fails. *)
Lemma construct_incomplete dir w :
  exists_ w (get_file (Make dir)) = false
  ∨ exists_ w (get_population_file (Make dir)) = false
  ∨ exists_ w (get_population_descriptions_file (Make dir)) = false
  ∨ exists_ w (get_alleles_file (Make dir)) = false →
  ∃ e, construct dir w = Throw e.
Proof.
  intros H. unfold construct.
  repeat match goal with
         | |- context [if negb ?b then _ else _] =>
             destruct b eqn:?; simpl; eauto
         end.
  exfalso. destruct H as [H|[H|[H|H]]]; congruence.
Qed.

(** C3 on a directory that lacks [germlines.csv] only: the constructor
    checks the file named germlines.csv and, when it is absent, reports a
    file named germline.csv, which is none of the four required files;
    the name of the missing file does not occur in the message. *)
Theorem construct_missing_germlines_names_another_file :
  exists_ (Sample.without "/store/germline_data/germlines.csv" Sample.germline_disk)
          (get_file Sample.germline) = false
  ∧ get_file Sample.germline = "/store/germline_data/germlines.csv"
  ∧ construct "/store/germline_data"
      (Sample.without "/store/germline_data/germlines.csv" Sample.germline_disk)
    = Throw (runtime_error (designed "/store/germline_data"
                            +:+ " does not contains the file "
                            +:+ quoted "germline.csv" +:+ "."))
  ∧ StdString.occurs "germlines.csv"
      (designed "/store/germline_data" +:+ " does not contains the file "
       +:+ quoted "germline.csv" +:+ ".") = false.
Proof. repeat split; vm_compute; reflexivity. Qed.

(** The other outcomes of the constructor on the sample directory. *)
Lemma construct_sample_outcomes :
  construct "/store/germline_data" Sample.germline_disk = Ok Sample.germline
  ∧ construct "/store/germline_data"
      (Sample.without "/store/germline_data/population.csv" Sample.germline_disk)
    = Throw (runtime_error (designed "/store/germline_data"
                            +:+ " does not contains the file "
                            +:+ quoted "population.csv" +:+ "."))
  ∧ construct "/store/germline_data"
      (Sample.without "/store/germline_data" Sample.germline_disk)
    = Throw (runtime_error (designed "/store/germline_data" +:+ " does not exist."))
  ∧ construct "/store/germline_data/germlines.csv" Sample.germline_disk
    = Throw (runtime_error (designed "/store/germline_data/germlines.csv"
                            +:+ " is not a directory.")).
Proof. repeat split; vm_compute; reflexivity. Qed.

End GermlineConstruction.

(** ** Subjects of the population file *)

Section Population.
Import GermlineStorage.

(** [get_population] yields one subject per row, in the order of the file,
    made of the first four fields of the row. *)
Lemma get_population_rows_inv rs acc l :
  get_population_rows rs acc = Ok l →
  ∃ ss, l = acc ++ ss
        ∧ Forall2 (λ row s, row !! 0%nat = Some (name s)
                            ∧ row !! 1%nat = Some (population s)
                            ∧ row !! 2%nat = Some (super_population s)
                            ∧ row !! 3%nat = Some (gender s)) rs ss.
Proof.
  revert acc l. induction rs as [|row rs IH]; simpl; intros acc l H.
  - injection H as <-. exists []. by rewrite app_nil_r.
  - unfold CSVReader.get_field in H.
    destruct (row !! 0%nat) as [f0|] eqn:E0; simpl in H; [|done].
    destruct (row !! 1%nat) as [f1|] eqn:E1; simpl in H; [|done].
    destruct (row !! 2%nat) as [f2|] eqn:E2; simpl in H; [|done].
    destruct (row !! 3%nat) as [f3|] eqn:E3; simpl in H; [|done].
    destruct (IH _ _ H) as (ss & -> & Hss).
    exists (mkGermlineSubject f0 f1 f2 f3 :: ss). split.
    + by rewrite <- app_assoc.
    + by constructor.
Qed.

(** The scan of [get_subject] stops at the first row bearing the name. *)
Lemma get_subject_rows_first rs ss i s :
  Forall2 (λ row s, row !! 0%nat = Some (name s)
                    ∧ row !! 1%nat = Some (population s)
                    ∧ row !! 2%nat = Some (super_population s)
                    ∧ row !! 3%nat = Some (gender s)) rs ss →
  ss !! i = Some s →
  (∀ j s', (j < i)%nat → ss !! j = Some s' → name s' ≠ name s) →
  get_subject_rows rs (name s) = Ok s.
Proof.
  intros HF. revert i.
  induction HF as [|row s0 rs ss (H0 & H1 & H2 & H3) HF IH]; intros i Hi Hfirst.
  - done.
  - simpl. unfold CSVReader.get_field. rewrite H0, H1, H2, H3. simpl.
    destruct i as [|i]; simpl in Hi.
    + injection Hi as ->. rewrite String.eqb_refl. by destruct s.
    + destruct (String.eqb_spec (name s0) (name s)) as [E|_].
      { exfalso. apply (Hfirst 0%nat s0); [lia | done | done]. }
      apply (IH i); [done|].
      intros j s' Hj Hs'. apply (Hfirst (S j)); [lia | done].
Qed.

Lemma get_subject_rows_absent rs n :
  Forall (λ row, ∃ f, row !! 0%nat = Some f ∧ f ≠ n) rs →
  get_subject_rows rs n = Throw (not_available n).
Proof.
  induction 1 as [|row rs (f & Hf & Hne) _ IH]; simpl; [done|].
  unfold CSVReader.get_field at 1. rewrite Hf. simpl.
  by destruct (String.eqb_spec f n).
Qed.

(** C8, as the code has it: over a population file that the reader opens,
    [get_subject] returns every subject of [get_population] that is the
    first of the file to bear its name, and throws the error naming the
    subject for a name that is the first field of no row. *)
Theorem get_subject_round_trip gs w reader :
  CSVReader.open (get_population_file gs) true w = Ok reader →
  (∀ subjects i s,
     get_population gs w = Ok subjects →
     subjects !! i = Some s →
     (∀ j s', (j < i)%nat → subjects !! j = Some s' → name s' ≠ name s) →
     get_subject gs (name s) w = Ok s)
  ∧ (∀ n,
     Forall (λ row, ∃ f, row !! 0%nat = Some f ∧ f ≠ n) (CSVReader.rows reader) →
     get_subject gs n w = Throw (not_available n)
     ∧ not_available n
       = runtime_error ("Germline subject " +:+ quoted n +:+ " not available.")).
Proof.
  intros Hopen. unfold get_population, get_subject. rewrite Hopen. simpl. split.
  - intros subjects i s Hpop Hi Hfirst.
    destruct (get_population_rows_inv _ _ _ Hpop) as (ss & -> & HF).
    by apply (get_subject_rows_first _ ss i).
  - intros n Hn. split; [by apply get_subject_rows_absent | reflexivity].
Qed.

Lemma get_subject_round_trip_witness :
  get_subject Sample.germline "HG00097" Sample.germline_disk
  = Ok (mkGermlineSubject "HG00097" "GBR" "EUR" "female")
  ∧ get_subject Sample.germline "HG00099" Sample.germline_disk
    = Throw (not_available "HG00099").
Proof.
  destruct (get_subject_round_trip Sample.germline Sample.germline_disk
              (CSVReader.Reader ["sample"; "pop"; "super_pop"; "gender"]
                                (tail Sample.population_lines)) eq_refl)
    as [Hfound Habsent].
  split.
  - apply (Hfound [mkGermlineSubject "HG00096" "GBR" "EUR" "male";
                   mkGermlineSubject "HG00097" "GBR" "EUR" "female";
                   mkGermlineSubject "NA18525" "CHB" "EAS" "male"]
                  1%nat (mkGermlineSubject "HG00097" "GBR" "EUR" "female")
                  eq_refl eq_refl).
    intros j s' Hj Hs'. destruct j as [|j]; [|lia].
    injection Hs' as <-. discriminate.
  - apply Habsent.
    repeat constructor; eexists; (split; [reflexivity | discriminate]).
Defined.

(** C8 as stated fails on a population file with two rows of one name:
    [get_population] returns both subjects, and [get_subject] on the name
    of the second returns the first. *)
Lemma get_subject_of_second_twin :
  get_population Sample.germline Sample.twins_disk
  = Ok [mkGermlineSubject "HG00096" "GBR" "EUR" "male";
        mkGermlineSubject "HG00096" "CHB" "EAS" "female"]
  ∧ get_subject Sample.germline
      (name (mkGermlineSubject "HG00096" "CHB" "EAS" "female")) Sample.twins_disk
    = Ok (mkGermlineSubject "HG00096" "GBR" "EUR" "male")
  ∧ get_subject Sample.germline
      (name (mkGermlineSubject "HG00096" "CHB" "EAS" "female")) Sample.twins_disk
    ≠ Ok (mkGermlineSubject "HG00096" "CHB" "EAS" "female").
Proof. split; [reflexivity|]. split; [reflexivity | discriminate]. Qed.

End Population.

(** ** Alleles per chromosome *)

Section AllelesPerChromosome.
Import GermlineStorage.

Variable stochr : string → result N.
Variable stoul : string → result N.

Lemma map_insert_present k v x (m : gmap N N) :
  m !! k = Some x → map_insert k v m = m.
Proof. intros H. unfold map_insert. by rewrite H. Qed.

Lemma map_insert_lookup k v k' (m : gmap N N) :
  m !! k' = None → k ≠ k' → map_insert k v m !! k' = None.
Proof.
  intros H Hne. unfold map_insert.
  destruct (m !! k); [done|]. by rewrite lookup_insert_ne.
Qed.

Lemma map_insert_absent k v (m : gmap N N) :
  m !! k = None → map_insert k v m !! k = Some v.
Proof. intros H. unfold map_insert. rewrite H. apply lookup_insert_eq. Qed.

(** A key that the map holds keeps its value through the rest of the
    file. *)
Lemma get_alleles_rows_keeps rs index (m0 m : gmap N N) k v :
  get_alleles_rows stochr stoul rs index m0 = Ok m →
  m0 !! k = Some v → m !! k = Some v.
Proof.
  revert m0. induction rs as [|row rs IH]; simpl; intros m0 H Hk.
  - by injection H as <-.
  - destruct (CSVReader.get_field row 0) as [n0|]; simpl in H; [|done].
    destruct (stochr n0) as [c|]; simpl in H; [|done].
    destruct (CSVReader.get_field row index) as [f|]; simpl in H; [|done].
    destruct (stoul f) as [x|]; simpl in H; [|done].
    apply (IH _ H). unfold map_insert.
    destruct (m0 !! c) eqn:Ec; [done|].
    rewrite lookup_insert_ne; [done|]. intros ->. congruence.
Qed.

Lemma get_alleles_rows_first rs index (m0 m : gmap N N) i row name0 k field v :
  get_alleles_rows stochr stoul rs index m0 = Ok m →
  m0 !! k = None →
  rs !! i = Some row →
  row !! 0%nat = Some name0 → stochr name0 = Ok k →
  row !! index = Some field → stoul field = Ok v →
  (∀ j row' n', (j < i)%nat → rs !! j = Some row' →
                row' !! 0%nat = Some n' → stochr n' ≠ Ok k) →
  m !! k = Some v.
Proof.
  revert i m0. induction rs as [|r rs IH]; intros i m0 H Hm0 Hi Hn Hk Hf Hv Hfirst.
  - done.
  - simpl in H. destruct i as [|i]; simpl in Hi.
    + injection Hi as ->. unfold CSVReader.get_field in H.
      rewrite Hn in H. simpl in H. rewrite Hk in H. simpl in H.
      rewrite Hf in H. simpl in H. rewrite Hv in H. simpl in H.
      apply (get_alleles_rows_keeps _ _ _ _ _ _ H).
      by apply map_insert_absent.
    + unfold CSVReader.get_field in H.
      destruct (r !! 0%nat) as [n0|] eqn:En; simpl in H; [|done].
      destruct (stochr n0) as [c|] eqn:Ec; simpl in H; [|done].
      destruct (r !! index) as [f|]; simpl in H; [|done].
      destruct (stoul f) as [x|]; simpl in H; [|done].
      apply (IH i _ H); try done.
      * apply map_insert_lookup; [done|]. intros ->.
        by apply (Hfirst 0%nat r n0); [lia|..].
      * intros j row' n' Hj Hr. apply (Hfirst (S j)); [lia | done].
Qed.

(** C10: the count that [get_alleles_per_chromosome] returns for a
    chromosome is the one of the first row of the file that parses to that
    chromosome; a later row with the same identifier changes nothing,
    since [std::map::insert] leaves a key that is present alone. *)
Theorem get_alleles_per_chromosome_keeps_first
    gs gender w reader index (m : gmap N N) i row name0 k field v :
  CSVReader.open (get_alleles_file gs) true w = Ok reader →
  find_index (CSVReader.get_header reader) gender = Some index →
  get_alleles_per_chromosome stochr stoul gs gender w = Ok m →
  CSVReader.rows reader !! i = Some row →
  row !! 0%nat = Some name0 → stochr name0 = Ok k →
  row !! index = Some field → stoul field = Ok v →
  (∀ j row' n', (j < i)%nat → CSVReader.rows reader !! j = Some row' →
                row' !! 0%nat = Some n' → stochr n' ≠ Ok k) →
  m !! k = Some v
  ∧ ∀ v', map_insert k v' m = m.
Proof.
  intros Hopen Hidx H Hi Hn Hk Hf Hv Hfirst.
  unfold get_alleles_per_chromosome in H. rewrite Hopen in H. simpl in H.
  rewrite Hidx in H.
  assert (m !! k = Some v) as Hm.
  { eapply get_alleles_rows_first; eauto. }
  split; [done|]. intros v'. by apply (map_insert_present _ _ v).
Qed.

End AllelesPerChromosome.

Section AllelesSample.
Import GermlineStorage.

Lemma get_alleles_per_chromosome_keeps_first_witness :
  Sample.male_alleles !! 1%N = Some 2%N
  ∧ ∀ v', map_insert 1 v' Sample.male_alleles = Sample.male_alleles.
Proof.
  apply (get_alleles_per_chromosome_keeps_first Sample.stochr Sample.stoul
           Sample.germline "male" Sample.germline_disk
           (CSVReader.Reader ["chr"; "male"; "female"] (tail Sample.alleles_lines))
           1%nat Sample.male_alleles
           0%nat ["1"; "2"; "2"] "1" 1%N "2" 2%N).
  - reflexivity.
  - reflexivity.
  - vm_compute. reflexivity.
  - reflexivity.
  - reflexivity.
  - reflexivity.
  - reflexivity.
  - reflexivity.
  - intros j row' n' Hj. lia.
Defined.

(** The duplicated chromosome of the sample file: the second row for
    chromosome 1, which gives 7, is ignored. *)
Lemma get_alleles_per_chromosome_sample :
  get_alleles_per_chromosome Sample.stochr Sample.stoul
                             Sample.germline "male" Sample.germline_disk
  = Ok Sample.male_alleles
  ∧ get_alleles_per_chromosome Sample.stochr Sample.stoul
                               Sample.germline "other" Sample.germline_disk
    = Throw (runtime_error "Unknown gender other.").
Proof. split; vm_compute; reflexivity. Qed.

End AllelesSample.

(** ** Sources that are local files *)

Section LocalSources.
Import GenomicDataStorage.

(** C7: when the source of a dataset exists on the disk, the accessor of
    its resolved path answers the source itself and the retrieval routine
    returns at once, leaving the world as it found it. For a signature
    source, the routine that retrieval runs per kind adds nothing to the
    download list; when both signature sources are local the batch is
    empty and no transfer is attempted, with or without an account. *)
Theorem local_source_short_circuits st w :
  (exists_ w (reference_src st) = true →
   get_reference_path st w = reference_src st
   ∧ retrieve_reference st w = (Ok (reference_src st), w))
  ∧ (exists_ w (drivers_src st) = true →
     get_driver_mutations_path st w = drivers_src st
     ∧ retrieve_drivers st w = (Ok tt, w))
  ∧ (exists_ w (passenger_CNAs_src st) = true →
     get_passenger_CNAs_path st w = passenger_CNAs_src st
     ∧ retrieve_passenger_CNAs st w = (Ok tt, w))
  ∧ (exists_ w (germline_src st) = true →
     get_germline_path st w = germline_src st
     ∧ retrieve_germline st w = (Ok tt, w))
  ∧ (∀ ty, exists_ w (get_signatures_src st ty) = true →
     get_signatures_path st ty w = get_signatures_src st ty
     ∧ ∀ dl, collect_signatures_download_list st ty dl w = Ok dl)
  ∧ (exists_ w (SBS_signatures_src st) = true →
     exists_ w (indel_signatures_src st) = true →
     ∀ account,
       (retrieve_signatures st account w).1 = Ok tt
       ∧ transfers (retrieve_signatures st account w).2 = transfers w
       ∧ fs (retrieve_signatures st account w).2 = fs w).
Proof.
  split; [|split; [|split; [|split; [|split]]]].
  - intros H. split.
    + unfold get_reference_path. by rewrite H.
    + unfold retrieve_reference, bind, fs_exists, reads, ret, get_reference_path.
      simpl. rewrite !H, andb_false_r. simpl. by rewrite !H.
  - intros H. split.
    + unfold get_driver_mutations_path. by rewrite H.
    + unfold retrieve_drivers, bind, fs_exists, reads, ret. by rewrite H.
  - intros H. split.
    + unfold get_passenger_CNAs_path. by rewrite H.
    + unfold retrieve_passenger_CNAs, bind, fs_exists, reads, ret. by rewrite H.
  - intros H. split.
    + unfold get_germline_path. by rewrite H.
    + unfold retrieve_germline, bind, fs_exists, reads, ret. by rewrite H.
  - intros ty H. split.
    + unfold get_signatures_path. by rewrite H.
    + intros dl. unfold collect_signatures_download_list. rewrite H.
      by destruct (exists_ w (signatures_storage_path st ty)).
  - intros HS HI account.
    unfold retrieve_signatures, bind, reads, collect_signatures_download_list.
    simpl. rewrite HS, HI.
    by destruct (exists_ w (get_directory st </> "SBS_signatures.txt")),
                (exists_ w (get_directory st </> "indel_signatures.txt")).
Qed.

Lemma local_source_short_circuits_witness :
  (get_reference_path Sample.local_store Sample.local_disk = "/data/genome.fa"
   ∧ retrieve_reference Sample.local_store Sample.local_disk
     = (Ok "/data/genome.fa", Sample.local_disk))
  ∧ (get_germline_path Sample.local_store Sample.local_disk = "/data/germline"
     ∧ retrieve_germline Sample.local_store Sample.local_disk
       = (Ok tt, Sample.local_disk))
  ∧ transfers (retrieve_signatures Sample.local_store None Sample.local_disk).2 = [].
Proof.
  destruct (local_source_short_circuits Sample.local_store Sample.local_disk)
    as (Href & _ & _ & Hgerm & _ & Hsig).
  split; [exact (Href eq_refl)|].
  split; [exact (Hgerm eq_refl)|].
  exact (proj1 (proj2 (Hsig eq_refl eq_refl None))).
Defined.

End LocalSources.

(** ** The batch of signature files *)

Section SignatureBatch.

Lemma signatures_from_COSMIC_true (dl : download_list) :
  signatures_from_COSMIC dl = true
  ↔ ∃ e, e ∈ dl ∧ COSMIC_site_regex_search e.1 = true.
Proof.
  induction dl as [|[src dst] dl IH]; simpl.
  - split; [done|]. intros (e & He & _). by apply elem_of_nil in He.
  - destruct (COSMIC_site_regex_search src) eqn:E.
    + split; [|done]. intros _. exists (src, dst). split; [left | done].
    + rewrite IH. split.
      * intros (e & He & Hm). exists e. split; [by right | done].
      * intros (e & He & Hm). apply elem_of_cons in He as [->|He].
        { simpl in Hm. congruence. }
        by exists e.
Qed.

Lemma signatures_from_COSMIC_false (dl : download_list) :
  (∀ e, e ∈ dl → COSMIC_site_regex_search e.1 = false) →
  signatures_from_COSMIC dl = false.
Proof.
  intros H. destruct (signatures_from_COSMIC dl) eqn:E; [|done].
  apply signatures_from_COSMIC_true in E as (e & He & Hm).
  rewrite (H e He) in Hm. done.
Qed.

(** What the two collecting calls leave in the list. *)
Lemma collect_signatures_download_list_elem st w dl0 dl :
  GenomicDataStorage.collect_signatures_download_list st SBSType [] w = Ok dl0 →
  GenomicDataStorage.collect_signatures_download_list st IDType dl0 w = Ok dl →
  ∀ src dst,
    (src, dst) ∈ dl
    ↔ ∃ ty, src = GenomicDataStorage.get_signatures_src st ty
            ∧ dst = GenomicDataStorage.signatures_storage_path st ty
            ∧ exists_ w dst = false
            ∧ exists_ w src = false
            ∧ GenomicDataStorage.is_an_URL src = true.
Proof.
  unfold GenomicDataStorage.collect_signatures_download_list. simpl.
  destruct (exists_ w (GenomicDataStorage.get_directory st </> "SBS_signatures.txt")) eqn:E1;
  destruct (exists_ w (GenomicDataStorage.SBS_signatures_src st)) eqn:E2;
  destruct (GenomicDataStorage.is_an_URL (GenomicDataStorage.SBS_signatures_src st)) eqn:E3; simpl;
  intros H0 H; try discriminate; injection H0 as <-; revert H; simpl;
  destruct (exists_ w (GenomicDataStorage.get_directory st </> "indel_signatures.txt")) eqn:E4;
  destruct (exists_ w (GenomicDataStorage.indel_signatures_src st)) eqn:E5;
  destruct (GenomicDataStorage.is_an_URL (GenomicDataStorage.indel_signatures_src st)) eqn:E6; simpl;
  intros H; try discriminate; injection H as <-; intros src dst;
  (split;
   [ intros Hin;
     repeat (apply elem_of_cons in Hin as [Hin|Hin]);
     try (by apply elem_of_nil in Hin);
     injection Hin as -> ->;
     first [ by exists SBSType | by exists IDType ]
   | intros ([|] & -> & -> & Hd & Hs & Hu); simpl in *;
     first [ congruence | set_solver ] ]).
Qed.

End SignatureBatch.

(** ** The cache check of [retrieve_germline] *)

Section GermlineCache.

(** Downloading and extracting print nothing. *)
Lemma download_file_Rcout url dest w :
  Rcout (download_file url dest w).2 = Rcout w.
Proof.
  unfold download_file, bind, fs_exists, reads, getOption_timeout,
    options_timeout, writes, ret, create_directory, download_f.
  destruct (exists_ w (parent_path dest)); simpl.
  - destruct (net w !! url); simpl; [|reflexivity].
    match goal with |- context [if ?b then _ else _] => destruct b end;
      reflexivity.
  - destruct (stat w (parent_path dest)) as [[|c]|]; simpl; try reflexivity.
    + destruct (net w !! url); simpl; [|reflexivity].
      match goal with |- context [if ?b then _ else _] => destruct b end;
        reflexivity.
    + destruct (negb (parent_path dest =? EmptyString)%string
                && is_directory w (parent_path (absolute w (parent_path dest))));
        simpl; [|reflexivity].
      destruct (net w !! url); simpl; [|reflexivity].
      match goal with |- context [if ?b then _ else _] => destruct b end;
        reflexivity.
Qed.

Lemma member_download_file_Rcout st url w :
  Rcout (GenomicDataStorage.download_file st url w).2 = Rcout w.
Proof.
  unfold GenomicDataStorage.download_file, bind, reads, ret.
  destruct (GenomicDataStorage.get_destination_path st url) as [dest|e];
    [|reflexivity].
  pose proof (download_file_Rcout url dest w) as H.
  destruct (download_file url dest w) as [[[]|e] w']; exact H.
Qed.

Lemma untar_Rcout tarfile exdir w :
  Rcout (untar tarfile exdir w).2 = Rcout w.
Proof.
  unfold untar.
  destruct (stat w tarfile)
    as [[|[lines|fmt [lines|fmt' inner|dirs files|forms]|dirs files|forms]]|];
    reflexivity.
Qed.

(** Past the cache check the routine announces the download. *)
Lemma retrieve_germline_announces st w :
  exists_ w (GenomicDataStorage.germline_src st) = false →
  GenomicDataStorage.is_an_URL (GenomicDataStorage.germline_src st) = true →
  exists_ w (GenomicDataStorage.germline_storage_path st </> "germlines.csv") = false →
  ∃ rest, Rcout (GenomicDataStorage.retrieve_germline st w).2
          = Rcout w ++ "Downloading germline mutations..." :: rest.
Proof.
  intros Hsrc Hurl Hcache.
  unfold GenomicDataStorage.retrieve_germline, bind, fs_exists, reads, writes, ret.
  rewrite Hsrc, Hurl. simpl. rewrite Hcache.
  pose proof (member_download_file_Rcout st (GenomicDataStorage.germline_src st)
                (print "Downloading germline mutations..." w)) as Hd.
  destruct (GenomicDataStorage.download_file st (GenomicDataStorage.germline_src st)
              (print "Downloading germline mutations..." w)) as [[file|e] w'];
    simpl in Hd.
  - pose proof (untar_Rcout file (GenomicDataStorage.directory st)
                  (print "Germline mutations downloaded" w')) as Hu.
    destruct (untar file (GenomicDataStorage.directory st)
                (print "Germline mutations downloaded" w')) as [r w''].
    simpl in *. rewrite Hu, Hd. rewrite <- app_assoc. eauto.
  - simpl. rewrite Hd. eauto.
Qed.

(** C9: for a remote germline source that is no local path,
    [retrieve_germline] returns without touching anything exactly when
    [germlines.csv] exists in the germline directory of the store. The
    three other required files are not looked at: when one of them is
    missing beside [germlines.csv] nothing is downloaded, the germline
    path resolves to the directory of the store, and the construction of
    the [GermlineStorage] over it throws. *)
Theorem retrieve_germline_checks_one_file st w :
  exists_ w (GenomicDataStorage.germline_src st) = false →
  GenomicDataStorage.is_an_URL (GenomicDataStorage.germline_src st) = true →
  (GenomicDataStorage.retrieve_germline st w = (Ok tt, w)
   ↔ exists_ w (GenomicDataStorage.germline_storage_path st </> "germlines.csv")
     = true)
  ∧ (exists_ w (GenomicDataStorage.germline_storage_path st </> "germlines.csv")
     = true →
     exists_ w (GenomicDataStorage.germline_storage_path st </> "population.csv")
     = false
     ∨ exists_ w (GenomicDataStorage.germline_storage_path st
                  </> "population_descriptions.csv") = false
     ∨ exists_ w (GenomicDataStorage.germline_storage_path st
                  </> "alleles_per_chr.csv") = false →
     GenomicDataStorage.retrieve_germline st w = (Ok tt, w)
     ∧ GenomicDataStorage.get_germline_path st w
       = GenomicDataStorage.germline_storage_path st
     ∧ ∃ e, GermlineStorage.construct
              (GenomicDataStorage.get_germline_path st w)
              (GenomicDataStorage.retrieve_germline st w).2
            = Throw e).
Proof.
  intros Hsrc Hurl.
  assert (exists_ w (GenomicDataStorage.germline_storage_path st </> "germlines.csv")
          = true →
          GenomicDataStorage.retrieve_germline st w = (Ok tt, w)) as Hcached.
  { intros Hc.
    unfold GenomicDataStorage.retrieve_germline, bind, fs_exists, reads, ret.
    rewrite Hsrc, Hurl. simpl. by rewrite Hc. }
  split; [split; [|exact Hcached]|].
  - intros Hret.
    destruct (exists_ w (GenomicDataStorage.germline_storage_path st </> "germlines.csv"))
      eqn:Hc; [done|].
    destruct (retrieve_germline_announces st w Hsrc Hurl Hc) as [rest Hrest].
    rewrite Hret in Hrest. simpl in Hrest.
    apply (f_equal length) in Hrest. rewrite length_app in Hrest.
    simpl in Hrest. lia.
  - intros Hc Hmissing.
    split; [by apply Hcached|].
    assert (GenomicDataStorage.get_germline_path st w
            = GenomicDataStorage.germline_storage_path st) as Hpath.
    { unfold GenomicDataStorage.get_germline_path. by rewrite Hsrc. }
    split; [exact Hpath|].
    rewrite Hpath, (Hcached Hc). simpl.
    apply construct_incomplete. right. exact Hmissing.
Qed.

Lemma retrieve_germline_checks_one_file_witness :
  GenomicDataStorage.retrieve_germline Sample.store Sample.stale_disk
  = (Ok tt, Sample.stale_disk)
  ∧ GenomicDataStorage.get_germline_path Sample.store Sample.stale_disk
    = "/store/germline_data"
  ∧ ∃ e, GermlineStorage.construct
           (GenomicDataStorage.get_germline_path Sample.store Sample.stale_disk)
           (GenomicDataStorage.retrieve_germline Sample.store Sample.stale_disk).2
         = Throw e.
Proof.
  apply (proj2 (retrieve_germline_checks_one_file
                  Sample.store Sample.stale_disk eq_refl eq_refl) eq_refl).
  left. reflexivity.
Defined.

(** The whole constructor on the stale directory: every dataset is found
    in the cache, nothing is transferred, and the construction stops in the
    validation of the germline directory. *)
Lemma construct_on_stale_germline :
  (GenomicDataStorage.construct_anonymous "/store"
     "https://host/genome.fa"
     "https://cancer.sanger.ac.uk/signatures/SBS.txt"
     "https://zenodo.org/records/1/ID.txt?download=1"
     "https://host/drivers.txt"
     "https://host/cnas.txt"
     "https://host/germline.tar.gz" Sample.stale_disk).1
  = Throw (runtime_error (GermlineStorage.designed "/store/germline_data"
                          +:+ " does not contains the file "
                          +:+ quoted "population.csv" +:+ "."))
  ∧ transfers (GenomicDataStorage.construct_anonymous "/store"
     "https://host/genome.fa"
     "https://cancer.sanger.ac.uk/signatures/SBS.txt"
     "https://zenodo.org/records/1/ID.txt?download=1"
     "https://host/drivers.txt"
     "https://host/cnas.txt"
     "https://host/germline.tar.gz" Sample.stale_disk).2 = [].
Proof. split; vm_compute; reflexivity. Qed.

End GermlineCache.

(** * Further properties of the storage layer *)

(** ** Destination paths and source classification *)

Section Destinations.
Import StdString GenomicDataStorage.

Lemma contains_app c a b :
  contains c (a +:+ b) = contains c a || contains c b.
Proof.
  induction a as [|x a IH]; [reflexivity|].
  rewrite append_cons. simpl. by destruct (Ascii.eqb x c).
Qed.

Lemma starts_with_iff p s :
  starts_with p s = true ↔ ∃ rest, s = p +:+ rest.
Proof.
  revert s. induction p as [|a p IH]; intros s.
  - split; [|done]. intros _. by exists s.
  - destruct s as [|b s]; simpl.
    + split; [done|]. intros [rest H]. by rewrite append_cons in H.
    + rewrite andb_true_iff, IH. split.
      * intros [Hab [rest ->]]. apply Ascii.eqb_eq in Hab as ->.
        by exists rest.
      * intros [rest H]. rewrite append_cons in H. injection H as -> ->.
        split; [apply Ascii.eqb_refl | by exists rest].
Qed.

(** X1: whatever the source string, [get_destination_path] does not throw,
    and the file name that it joins to the storage directory holds neither
    a slash nor a question mark; the destination is therefore the storage
    directory, a separator when the directory does not end in one, and
    that name. The name may be empty or one of the two dot names: nothing
    is said on where such a destination lies. *)
Theorem get_destination_path_flat st url :
  (size url < npos)%N →
  ∃ fname, get_destination_path st url = Ok (get_directory st </> fname)
           ∧ contains "/" fname = false
           ∧ contains "?" fname = false
           ∧ get_directory st </> fname
             = get_directory st
               +:+ (if has_filename (get_directory st)
                    then String slash fname else fname).
Proof.
  intros Hsize.
  assert (∀ fname, contains "/" fname = false →
            get_directory st </> fname
            = get_directory st
              +:+ (if has_filename (get_directory st)
                   then String slash fname else fname)) as Hjoin.
  { intros fname Hs. unfold path_append.
    assert (is_absolute fname = false) as ->.
    { destruct fname as [|a fname]; [done|]. cbn [contains] in Hs.
      cbn [is_absolute]. change slash with "/"%char.
      by destruct (Ascii.eqb a "/"). }
    by destruct (has_filename (get_directory st)). }
  assert (∃ f, substr url (size_t_add (find_last_of url "/") 1) npos = Ok f
               ∧ (size f < npos)%N ∧ contains "/" f = false)
    as (f & Hsub & Hf & Hslash).
  { destruct (contains "/" url) eqn:Hs.
    - destruct (split_at_last _ _ Hs) as (pre & f & -> & Hfn).
      exists f. split; [by apply substr_after_last_slash|].
      rewrite size_app, size_String in Hsize. split; [lia | done].
    - exists url. split; [by apply substr_without_slash | done]. }
  destruct (get_destination_path_of_filename st url f Hsub Hf) as [H1 H2].
  destruct (contains "?" f) eqn:Hq.
  - destruct (split_at_first _ _ Hq) as (a & b & -> & Ha).
    rewrite contains_app in Hslash. apply orb_false_elim in Hslash as [Hsa _].
    exists a. split; [by apply (H2 a b) |]. split; [done|].
    split; [done | by apply Hjoin].
  - exists f. split; [by apply H1|]. split; [done|].
    split; [done | by apply Hjoin].
Qed.

Lemma get_destination_path_flat_witness :
  ∃ fname,
    get_destination_path Sample.store "https://host/a?b/c.txt?d=/e"
    = Ok (get_directory Sample.store </> fname)
    ∧ contains "/" fname = false
    ∧ contains "?" fname = false
    ∧ get_directory Sample.store </> fname
      = get_directory Sample.store
        +:+ (if has_filename (get_directory Sample.store)
             then String slash fname else fname).
Proof.
  exact (get_destination_path_flat Sample.store
           "https://host/a?b/c.txt?d=/e" eq_refl).
Defined.

(** Three sources whose destination is not a file of the storage
    directory: the name left is a dot name or empty. *)
Lemma get_destination_path_dot_names :
  get_destination_path Sample.store "https://host/.." = Ok "/store/.."
  ∧ get_destination_path Sample.store "https://host/dir/.?x" = Ok "/store/."
  ∧ get_destination_path Sample.store "https://host/" = Ok "/store/".
Proof. repeat split; vm_compute; reflexivity. Qed.

(** [is_an_URL] accepts exactly the strings that begin with one of the
    three protocol prefixes; every string it accepts holds a slash. *)
Theorem is_an_URL_prefixes s :
  (is_an_URL s = true
   ↔ ∃ rest, s = "ftp://" +:+ rest ∨ s = "http://" +:+ rest
             ∨ s = "https://" +:+ rest)
  ∧ (is_an_URL s = true → contains "/" s = true).
Proof.
  assert (is_an_URL s = true
          ↔ ∃ rest, s = "ftp://" +:+ rest ∨ s = "http://" +:+ rest
                    ∨ s = "https://" +:+ rest) as Hiff.
  { unfold is_an_URL, protocols, is_an_URL_among.
    destruct (starts_with "ftp://" s) eqn:E1.
    { apply starts_with_iff in E1 as [rest ->]. split; [eauto | done]. }
    destruct (starts_with "http://" s) eqn:E2.
    { apply starts_with_iff in E2 as [rest ->]. split; [eauto | done]. }
    destruct (starts_with "https://" s) eqn:E3.
    { apply starts_with_iff in E3 as [rest ->]. split; [eauto | done]. }
    simpl. split; [done|]. intros [rest [H|[H|H]]].
    - assert (starts_with "ftp://" s = true) by (apply starts_with_iff; eauto).
      congruence.
    - assert (starts_with "http://" s = true) by (apply starts_with_iff; eauto).
      congruence.
    - assert (starts_with "https://" s = true) by (apply starts_with_iff; eauto).
      congruence. }
  split; [exact Hiff|].
  intros H. destruct (proj1 Hiff H) as [rest [Hs|[Hs|Hs]]]; subst; reflexivity.
Qed.

End Destinations.

(** ** The COSMIC pattern *)

Section CosmicPattern.
Import StdString.

Lemma strip_prefix_iff p s r :
  strip_prefix p s = Some r ↔ s = p +:+ r.
Proof.
  revert s. induction p as [|a p IH]; intros s.
  - rewrite append_nil. simpl. split; congruence.
  - rewrite append_cons. destruct s as [|b s]; simpl; [split; done|].
    destruct (Ascii.eqb_spec a b) as [->|Hne].
    + rewrite IH. split; congruence.
    + split; [done | congruence].
Qed.

Lemma match_COSMIC_site_tail_iff tail :
  match_atoms COSMIC_site_tail tail = true
  ↔ ∃ c1 c2 c3 rest,
      tail = String c1 ("sanger" +:+ String c2 ("ac" +:+ String c3 ("uk" +:+ rest)))
      ∧ dot c1 = true ∧ dot c2 = true ∧ dot c3 = true.
Proof.
  unfold COSMIC_site_tail, lit. split.
  - intros H.
    do 13 (destruct tail as [|? tail];
           [cbn [match_atoms] in H; rewrite ?andb_false_r in H;
            discriminate|]).
    cbn [match_atoms] in H.
    repeat (apply andb_true_iff in H as [? H]).
    repeat match goal with
           | E : Ascii.eqb _ _ = true |- _ => apply Ascii.eqb_eq in E; subst
           end.
    eexists _, _, _, tail. rewrite ?append_cons, ?append_nil. eauto.
  - intros (c1 & c2 & c3 & rest & -> & H1 & H2 & H3).
    rewrite ?append_cons, ?append_nil. cbn [match_atoms].
    by rewrite H1, H2, H3, !Ascii.eqb_refl.
Qed.

Lemma match_host_then_tail_iff s :
  match_host_then_tail s = true
  ↔ ∃ host tail,
      s = host +:+ tail
      ∧ (∀ c, contains c host = true → host_class c = true)
      ∧ match_atoms COSMIC_site_tail tail = true.
Proof.
  induction s as [|x s IH].
  - split; [done|]. intros (host & tail & H & _ & Ht).
    destruct host; [|by rewrite append_cons in H].
    rewrite append_nil in H. by subst.
  - cbn [match_host_then_tail]. rewrite orb_true_iff, andb_true_iff, IH. split.
    + intros [H|[Hx (host & tail & -> & Hh & Ht)]].
      * exists EmptyString, (String x s). by rewrite append_nil.
      * exists (String x host), tail. rewrite append_cons.
        split; [done|]. split; [|done].
        intros c. simpl. destruct (Ascii.eqb_spec x c) as [<-|_]; auto.
    + intros (host & tail & H & Hh & Ht). destruct host as [|y host].
      * rewrite append_nil in H. subst. by left.
      * rewrite append_cons in H. injection H as -> ->. right. split.
        -- apply Hh. simpl. by rewrite Ascii.eqb_refl.
        -- exists host, tail. split; [done|]. split; [|done].
           intros c Hc. apply Hh. simpl. rewrite Hc.
           by destruct (Ascii.eqb y c).
Qed.

(** The search for the COSMIC pattern succeeds exactly on the strings made
    of [https://], any number of letters, digits, underscores and hyphens,
    any character, [sanger], any character, [ac], any character, [uk], and
    anything after that. The three separators need not be dots, and no
    other protocol than https matches. *)
Theorem COSMIC_site_regex_language src :
  COSMIC_site_regex_search src = true
  ↔ ∃ host c1 c2 c3 rest,
      src = "https://" +:+ host
            +:+ String c1 ("sanger" +:+ String c2 ("ac" +:+ String c3 ("uk" +:+ rest)))
      ∧ (∀ c, contains c host = true → host_class c = true)
      ∧ dot c1 = true ∧ dot c2 = true ∧ dot c3 = true.
Proof.
  unfold COSMIC_site_regex_search. split.
  - destruct (strip_prefix "https://" src) as [r|] eqn:E; [|done].
    apply strip_prefix_iff in E as ->.
    intros H. apply match_host_then_tail_iff in H as (host & tail & -> & Hh & Ht).
    apply match_COSMIC_site_tail_iff in Ht as (c1 & c2 & c3 & rest & -> & ?).
    by exists host, c1, c2, c3, rest.
  - intros (host & c1 & c2 & c3 & rest & -> & Hh & H1 & H2 & H3).
    assert (strip_prefix "https://"
              ("https://" +:+ host +:+ String c1 ("sanger" +:+ String c2
                 ("ac" +:+ String c3 ("uk" +:+ rest))))
            = Some (host +:+ String c1 ("sanger" +:+ String c2
                 ("ac" +:+ String c3 ("uk" +:+ rest))))) as ->
      by by apply strip_prefix_iff.
    apply match_host_then_tail_iff. eexists _, _. split; [done|].
    split; [done|]. apply match_COSMIC_site_tail_iff. by exists c1, c2, c3, rest.
Qed.

End CosmicPattern.

(** ** The order of the checks of the retrieval routines *)

Section RetrievalPolicy.
Import GenomicDataStorage.

(** A source that is neither a URL nor a path of the disk is refused by
    the routines for the reference, the drivers, the passenger CNAs and
    the germline before they look at the cache: they throw, naming the
    source, even when the storage directory holds the cached file, and
    leave the world alone. The collection of a signature source looks at
    the cache first: it throws for such a source only when the signature
    file is not cached. *)
Theorem missing_source_refused st w :
  (exists_ w (reference_src st) = false →
   is_an_URL (reference_src st) = false →
   retrieve_reference st w
   = (Throw (runtime_error ("Designed reference genome file "
                            +:+ quoted (reference_src st)
                            +:+ " does not exists.")), w))
  ∧ (exists_ w (drivers_src st) = false →
     is_an_URL (drivers_src st) = false →
     retrieve_drivers st w
     = (Throw (runtime_error ("Designed driver mutations file "
                              +:+ quoted (drivers_src st)
                              +:+ " does not exists.")), w))
  ∧ (exists_ w (passenger_CNAs_src st) = false →
     is_an_URL (passenger_CNAs_src st) = false →
     retrieve_passenger_CNAs st w
     = (Throw (runtime_error ("Designed passenger CNAs file "
                              +:+ quoted (passenger_CNAs_src st)
                              +:+ " does not exists.")), w))
  ∧ (exists_ w (germline_src st) = false →
     is_an_URL (germline_src st) = false →
     retrieve_germline st w
     = (Throw (runtime_error ("Designed germline directory "
                              +:+ quoted (germline_src st)
                              +:+ " does not exists.")), w))
  ∧ (∀ ty dl,
       exists_ w (get_signatures_src st ty) = false →
       is_an_URL (get_signatures_src st ty) = false →
       collect_signatures_download_list st ty dl w
       = if exists_ w (signatures_storage_path st ty) then Ok dl
         else Throw (runtime_error ("Signature file "
                                    +:+ quoted (get_signatures_src st ty)
                                    +:+ " does not exists."))).
Proof.
  split; [|split; [|split; [|split]]].
  - intros He Hu.
    unfold retrieve_reference, bind, fs_exists, reads, throw.
    by rewrite He, Hu.
  - intros He Hu.
    unfold retrieve_drivers, bind, fs_exists, reads, throw.
    by rewrite !He, Hu.
  - intros He Hu.
    unfold retrieve_passenger_CNAs, bind, fs_exists, reads, throw.
    by rewrite He, Hu.
  - intros He Hu.
    unfold retrieve_germline, bind, fs_exists, reads, throw.
    by rewrite He, Hu.
  - intros ty dl He Hu. unfold collect_signatures_download_list.
    by rewrite He, Hu.
Qed.

Lemma missing_source_refused_witness :
  (retrieve_drivers Sample.misconfigured_store Sample.stale_disk).1
  = Throw (runtime_error ("Designed driver mutations file "
                          +:+ quoted "nowhere/drivers.txt"
                          +:+ " does not exists."))
  ∧ exists_ Sample.stale_disk
      (driver_mutations_storage_path Sample.misconfigured_store) = true
  ∧ collect_signatures_download_list Sample.misconfigured_store SBSType []
      Sample.stale_disk = Ok [].
Proof.
  destruct (missing_source_refused Sample.misconfigured_store Sample.stale_disk)
    as (_ & Hd & _ & _ & Hs).
  split; [by rewrite (Hd eq_refl eq_refl)|].
  split; [reflexivity|].
  exact (Hs SBSType [] eq_refl eq_refl).
Defined.

(** A remote source whose file is in the storage directory is not
    downloaded again: the routines for the reference, the drivers and the
    passenger CNAs return with the world as it was. When both signature
    files are in the storage directory, [retrieve_signatures] looks at no
    source and needs no account: it prints its two messages and does
    nothing else. *)
Theorem cached_copy_reused st w :
  (exists_ w (reference_src st) = false →
   is_an_URL (reference_src st) = true →
   exists_ w (reference_storage_path st) = true →
   retrieve_reference st w = (Ok (reference_storage_path st), w))
  ∧ (exists_ w (drivers_src st) = false →
     is_an_URL (drivers_src st) = true →
     exists_ w (driver_mutations_storage_path st) = true →
     retrieve_drivers st w = (Ok tt, w))
  ∧ (exists_ w (passenger_CNAs_src st) = false →
     is_an_URL (passenger_CNAs_src st) = true →
     exists_ w (passenger_CNAs_storage_path st) = true →
     retrieve_passenger_CNAs st w = (Ok tt, w))
  ∧ (exists_ w (signatures_storage_path st SBSType) = true →
     exists_ w (signatures_storage_path st IDType) = true →
     ∀ account,
       retrieve_signatures st account w
       = (Ok tt, print "Signature file downloaded"
                   (print "Downloading signature files..." w))).
Proof.
  split; [|split; [|split]].
  - intros He Hu Hc.
    unfold retrieve_reference, bind, fs_exists, reads, ret, get_reference_path.
    rewrite He, Hu. simpl. by rewrite He, Hc.
  - intros He Hu Hc.
    unfold retrieve_drivers, bind, fs_exists, reads, ret,
      get_driver_mutations_path.
    rewrite !He, Hu. simpl. by rewrite He, Hc.
  - intros He Hu Hc.
    unfold retrieve_passenger_CNAs, bind, fs_exists, reads, ret.
    rewrite He, Hu. simpl. by rewrite Hc.
  - intros HS HI account.
    unfold retrieve_signatures, bind, reads, writes,
      collect_signatures_download_list.
    by rewrite HS, HI.
Qed.

Lemma cached_copy_reused_witness :
  retrieve_reference Sample.store Sample.stale_disk
  = (Ok "/store/reference.fasta", Sample.stale_disk)
  ∧ retrieve_signatures Sample.store None Sample.stale_disk
    = (Ok tt, print "Signature file downloaded"
                (print "Downloading signature files..." Sample.stale_disk)).
Proof.
  destruct (cached_copy_reused Sample.store Sample.stale_disk)
    as (Hr & _ & _ & Hs).
  split; [exact (Hr eq_refl eq_refl eq_refl) | exact (Hs eq_refl eq_refl None)].
Defined.

End RetrievalPolicy.

(** ** What the routines leave behind when they return *)

Section Returns.

Lemma calm_refl w : calm w w.
Proof. by split. Qed.

Lemma calm_trans w1 w2 w3 : calm w1 w2 → calm w2 w3 → calm w1 w3.
Proof. intros [? ?] [? ?]. split; congruence. Qed.

Lemma grown_refl w : grown w w.
Proof. split; [apply calm_refl | done]. Qed.

Lemma grown_trans w1 w2 w3 : grown w1 w2 → grown w2 w3 → grown w1 w3.
Proof.
  intros [Hc1 H1] [Hc2 H2]. split; [by eapply calm_trans | auto].
Qed.

Lemma grown_calm w w' : grown w w' → calm w w'.
Proof. by intros [? _]. Qed.

Lemma exists_true_iff w p :
  exists_ w p = true ↔ p ≠ EmptyString ∧ is_Some (fs w !! absolute w p).
Proof.
  unfold exists_, stat. destruct p as [|a p].
  - split; [done | by intros [? _]].
  - destruct (fs w !! absolute w (String a p)) eqn:E.
    + split; [|done]. intros _. split; [done | eauto].
    + split; [done|]. intros [_ [? ?]]. done.
Qed.

Lemma grown_exists w w' p :
  grown w w' → exists_ w p = true → exists_ w' p = true.
Proof.
  intros [[Hcwd _] Hfs]. rewrite !exists_true_iff.
  intros [Hp Hs]. split; [done|]. apply Hfs.
  unfold absolute in *. by rewrite Hcwd.
Qed.

(** *** Composition *)

Lemma on_return_weaken {A} (R R' : world → world → Prop) (m : IO A) :
  (∀ w w', R w w' → R' w w') → on_return R m → on_return R' m.
Proof. intros HR Hm w a w' H. eauto. Qed.

Lemma on_return_ret {A} (R : world → world → Prop) (a : A) :
  (∀ w, R w w) → on_return R (ret a).
Proof. intros HR w b w' [= _ <-]. apply HR. Qed.

Lemma on_return_throw {A} (R : world → world → Prop) e :
  on_return R (throw e : IO A).
Proof. intros w a w' H. discriminate. Qed.

Lemma on_return_reads {A} (R : world → world → Prop) (f : world → result A) :
  (∀ w, R w w) → on_return R (reads f).
Proof. intros HR w a w' [= _ <-]. apply HR. Qed.

Lemma on_return_writes (R : world → world → Prop) (f : world → world) :
  (∀ w, R w (f w)) → on_return R (writes f).
Proof. intros HR w a w' H. inversion H; subst. apply HR. Qed.

Lemma on_return_bind {A B} (R : world → world → Prop)
    (m : IO A) (k : A → IO B) :
  (∀ w1 w2 w3, R w1 w2 → R w2 w3 → R w1 w3) →
  on_return R m → (∀ a, on_return R (k a)) → on_return R (bind m k).
Proof.
  intros HT Hm Hk w b w' H. unfold bind in H.
  destruct (m w) as [[a|e] w1] eqn:E; [|discriminate].
  eapply HT; [by eapply Hm | by eapply Hk].
Qed.

Lemma on_return_for_each {A} (R : world → world → Prop)
    (l : list A) (body : A → IO unit) :
  (∀ w, R w w) → (∀ w1 w2 w3, R w1 w2 → R w2 w3 → R w1 w3) →
  (∀ x, on_return R (body x)) → on_return R (for_each l body).
Proof.
  intros HR HT Hb. induction l as [|x l IH]; simpl.
  - by apply on_return_ret.
  - apply on_return_bind; auto.
Qed.

End Returns.

Section Primitives.

Lemma grown_set_fs_insert w k v :
  grown w (set_fs (<[k := v]> (fs w)) w).
Proof.
  split; [by split|]. intros p Hp. simpl.
  apply lookup_insert_is_Some'. by right.
Qed.

Lemma exists_after_insert w w' p v :
  cwd w' = cwd w → p ≠ EmptyString →
  fs w' !! absolute w p = Some v → exists_ w' p = true.
Proof.
  intros Hcwd Hp H. apply exists_true_iff. split; [done|].
  unfold absolute in *. rewrite Hcwd. eauto.
Qed.

Lemma create_directory_grown p : on_return grown (create_directory p).
Proof.
  intros w a w' H. unfold create_directory in H.
  destruct (stat w p) as [[|c]|].
  - injection H as _ <-. apply grown_refl.
  - discriminate.
  - destruct (negb (p =? EmptyString)%string
              && is_directory w (parent_path (absolute w p))); [|discriminate].
    injection H as _ <-. apply grown_set_fs_insert.
Qed.

(** A call of [download_file] that returns has made exactly one transfer,
    has written the destination, and has kept everything else. *)
Lemma download_file_returns url dest w w' :
  download_file url dest w = (Ok tt, w') →
  grown w w'
  ∧ (dest ≠ EmptyString → exists_ w' dest = true)
  ∧ transfers w' = transfers w ++ [PlainGet url dest (Z.max 1000 (timeout w))].
Proof.
  unfold download_file, bind, fs_exists, reads, getOption_timeout,
    options_timeout, writes, ret.
  assert (∀ w1, grown w w1 → timeout w1 = timeout w →
                transfers w1 = transfers w →
                (let (r, w'0) := download_f url dest (set_timeout (Z.max 1000 (timeout w1)) w1) in
                 match r with
                 | Ok _ => (Ok tt, set_timeout (timeout w1) w'0)
                 | Throw e => (Throw e, w'0)
                 end) = (Ok tt, w') →
                grown w w'
                ∧ (dest ≠ EmptyString → exists_ w' dest = true)
                ∧ transfers w' = transfers w ++ [PlainGet url dest (Z.max 1000 (timeout w))])
    as Hcore.
  { intros w1 [[Hcwd _] Hfs] Ht Htr. unfold download_f. simpl.
    destruct (net w1 !! url) as [c|]; [|discriminate].
    match goal with |- context [if ?b then _ else _] => destruct b end;
      [|discriminate].
    intros [= <-]. split; [|split].
    - split; [split; [exact Hcwd | exact Ht]|].
      intros p Hp. simpl. apply lookup_insert_is_Some'. right. by apply Hfs.
    - intros Hd. apply exists_true_iff. split; [done|]. simpl.
      unfold absolute. simpl. rewrite lookup_insert_eq. eauto.
    - simpl. by rewrite Htr, Ht. }
  destruct (exists_ w (parent_path dest)); simpl.
  - apply Hcore; [apply grown_refl | done | done].
  - destruct (create_directory (parent_path dest) w) as [[b|e] w1] eqn:E;
      [|discriminate].
    pose proof (create_directory_grown _ _ _ _ E) as Hg.
    simpl. apply Hcore; [done | apply Hg |].
    unfold create_directory in E.
    destruct (stat w (parent_path dest)) as [[|c]|]; try discriminate.
    + by injection E as _ <-.
    + destruct (negb (parent_path dest =? EmptyString)%string
                && is_directory w (parent_path (absolute w (parent_path dest))));
        [|discriminate].
      by injection E as _ <-.
Qed.

Lemma writeBin_returns c dest w w' :
  writeBin c dest w = (Ok tt, w') →
  grown w w' ∧ transfers w' = transfers w
  ∧ (dest ≠ EmptyString → exists_ w' dest = true).
Proof.
  unfold writeBin.
  match goal with |- context [if ?b then _ else _] => destruct b end;
    [|discriminate].
  intros [= <-]. split; [apply grown_set_fs_insert|]. split; [done|].
  intros Hd. apply exists_true_iff. split; [done|]. simpl.
  unfold absolute. simpl. rewrite lookup_insert_eq. eauto.
Qed.

Lemma foldl_insert_is_Some {A} (f : A → path) (g : A → node) (l : list A)
    (m : gmap path node) p :
  is_Some (m !! p) →
  is_Some (foldl (λ acc x, <[f x := g x]> acc) m l !! p).
Proof.
  revert m. induction l as [|x l IH]; simpl; intros m H; [done|].
  apply IH. apply lookup_insert_is_Some'. by right.
Qed.

Lemma untar_grown tarfile exdir : on_return grown (untar tarfile exdir).
Proof.
  intros w a w' H. unfold untar in H.
  assert (∀ dirs files,
            grown w (set_fs
              (foldl (λ f e, <[absolute w (exdir </> e.1) := Regular e.2]> f)
                 (foldl (λ f d, <[absolute w (exdir </> d) := Directory]> f)
                    (fs w) dirs) files) w)) as Hex.
  { intros dirs files. split; [by split|]. intros p Hp. simpl.
    apply (foldl_insert_is_Some (λ e, absolute w (exdir </> e.1))
                                (λ e, Regular e.2)).
    by apply (foldl_insert_is_Some (λ d, absolute w (exdir </> d))
                                   (λ _, Directory)). }
  destruct (stat w tarfile)
    as [[|[lines|fmt [lines|fmt' inner|dirs files|forms]|dirs files|forms]]|];
    try discriminate; injection H as _ <-; apply Hex.
Qed.

Lemma R_utils_decompress_returns fn filename destname w w' :
  R_utils_decompress fn filename destname w = (Ok tt, w') →
  calm w w' ∧ transfers w' = transfers w
  ∧ (destname ≠ EmptyString → exists_ w' destname = true).
Proof.
  unfold R_utils_decompress.
  destruct (R_utils_format fn) as [fmt|]; [|discriminate].
  destruct (stat w filename) as [[|[lines|fmt' inner|dirs files|forms]]|];
    try discriminate.
  match goal with |- context [if ?b then _ else _] => destruct b end;
    [|discriminate].
  intros [= <-]. split; [by split|]. split; [done|].
  intros Hd. apply exists_true_iff. split; [done|]. simpl.
  unfold absolute. simpl. rewrite lookup_insert_eq. eauto.
Qed.

Lemma rename_calm old new : on_return calm (rename old new).
Proof.
  intros w a w' H. unfold rename in H.
  destruct (stat w old); [|discriminate]. by injection H as _ <-.
Qed.

Lemma path_append_nonempty p q : q ≠ EmptyString → p </> q ≠ EmptyString.
Proof.
  intros Hq. unfold path_append.
  destruct (is_absolute q); [done|].
  destruct (has_filename p); destruct p; try done;
    rewrite ?append_nil, ?append_cons; done.
Qed.

End Primitives.

Section Routines.

(** The free function [download_file], which the member of that name hides
    once the module is imported. *)
Local Abbreviation global_download_file := download_file (only parsing).
Import GenomicDataStorage.

Local Ltac returned :=
  let H := fresh in intros H; cbv beta in H; inversion H; subst; clear H.

Lemma grown_print msg w : grown w (print msg w).
Proof. split; [by split | done]. Qed.

Lemma storage_paths_nonempty st :
  reference_storage_path st ≠ EmptyString
  ∧ driver_mutations_storage_path st ≠ EmptyString
  ∧ passenger_CNAs_storage_path st ≠ EmptyString
  ∧ ∀ ty, signatures_storage_path st ty ≠ EmptyString.
Proof.
  split; [|split; [|split]].
  - by apply path_append_nonempty.
  - by apply path_append_nonempty.
  - by apply path_append_nonempty.
  - intros ty. destruct ty; by apply path_append_nonempty.
Qed.

(** A call of [retrieve_drivers] that returns leaves the driver file
    behind: the source is a path of the disk, or it is a URL and the file
    is in the storage directory. *)
Lemma retrieve_drivers_returns st w w' :
  retrieve_drivers st w = (Ok tt, w') →
  grown w w'
  ∧ (exists_ w' (drivers_src st) = true
     ∨ is_an_URL (drivers_src st) = true
       ∧ exists_ w' (driver_mutations_storage_path st) = true).
Proof.
  unfold retrieve_drivers, bind, fs_exists, reads, writes, ret, throw,
    get_driver_mutations_path.
  destruct (exists_ w (drivers_src st)) eqn:He; simpl.
  { returned. split; [apply grown_refl | by left]. }
  rewrite ?He.
  destruct (is_an_URL (drivers_src st)) eqn:Hu; simpl; [|discriminate].
  rewrite ?He.
  destruct (exists_ w (driver_mutations_storage_path st)) eqn:Hc.
  { returned. split; [apply grown_refl | by right]. }
  destruct (global_download_file (drivers_src st) (driver_mutations_storage_path st)
              (print "Downloading driver mutation file..." w))
    as [[[]|e] w1] eqn:Ed; [|discriminate].
  returned.
  destruct (download_file_returns _ _ _ _ Ed) as (Hg & Hx & _).
  split.
  - eapply grown_trans; [apply grown_print|].
    eapply grown_trans; [exact Hg | apply grown_print].
  - right. split; [done|].
    apply (grown_exists w1); [apply grown_print|].
    apply Hx, storage_paths_nonempty.
Qed.

Lemma retrieve_passenger_CNAs_returns st w w' :
  retrieve_passenger_CNAs st w = (Ok tt, w') →
  grown w w'
  ∧ (exists_ w' (passenger_CNAs_src st) = true
     ∨ is_an_URL (passenger_CNAs_src st) = true
       ∧ exists_ w' (passenger_CNAs_storage_path st) = true).
Proof.
  unfold retrieve_passenger_CNAs, bind, fs_exists, reads, writes, ret, throw.
  destruct (exists_ w (passenger_CNAs_src st)) eqn:He; simpl.
  { returned. split; [apply grown_refl | by left]. }
  destruct (is_an_URL (passenger_CNAs_src st)) eqn:Hu; simpl; [|discriminate].
  destruct (exists_ w (passenger_CNAs_storage_path st)) eqn:Hc.
  { returned. split; [apply grown_refl | by right]. }
  destruct (global_download_file (passenger_CNAs_src st) (passenger_CNAs_storage_path st)
              (print "Downloading passenger CNAs file..." w))
    as [[[]|e] w1] eqn:Ed; [|discriminate].
  returned.
  destruct (download_file_returns _ _ _ _ Ed) as (Hg & Hx & _).
  split.
  - eapply grown_trans; [apply grown_print|].
    eapply grown_trans; [exact Hg | apply grown_print].
  - right. split; [done|].
    apply (grown_exists w1); [apply grown_print|].
    apply Hx, storage_paths_nonempty.
Qed.

(** The member [download_file] keeps the disk and the settings. *)
Lemma member_download_file_returns st url file w w' :
  download_file st url w = (Ok file, w') → grown w w'.
Proof.
  unfold download_file, bind, reads, ret.
  destruct (get_destination_path st url) as [dest|e]; [|discriminate].
  destruct (global_download_file url dest w) as [[[]|e] w1] eqn:Ed; [|discriminate].
  returned. by destruct (download_file_returns _ _ _ _ Ed).
Qed.

Lemma retrieve_reference_returns st p w w' :
  retrieve_reference st w = (Ok p, w') →
  calm w w'
  ∧ (exists_ w' (reference_src st) = true
     ∨ is_an_URL (reference_src st) = true
       ∧ exists_ w' (reference_storage_path st) = true).
Proof.
  unfold retrieve_reference, bind, fs_exists, reads, writes, ret, throw,
    get_reference_path, namespace_env.
  destruct (exists_ w (reference_src st)) eqn:He; simpl.
  { rewrite andb_false_r, ?He. simpl. rewrite ?He.
    returned. split; [apply calm_refl | by left]. }
  destruct (is_an_URL (reference_src st)) eqn:Hu; simpl; [|discriminate].
  rewrite ?He.
  destruct (exists_ w (reference_storage_path st)) eqn:Hc.
  { returned. split; [apply calm_refl | by right]. }
  destruct (download_file st (reference_src st)
              (print "Downloading reference genome..." w))
    as [[file|e] w1] eqn:Ed; [|discriminate].
  apply member_download_file_returns in Ed as [Hcalm _].
  destruct (StdString.substr file _ _) as [suffix|e]; [|discriminate].
  rewrite is_fasta_suffix_false.
  destruct (decompressors !! suffix) as [fn|]; [|discriminate].
  simpl.
  match goal with |- context [if ?b then _ else _] => destruct b end;
    [|discriminate].
  destruct (R_utils_decompress fn file (reference_storage_path st) _)
    as [[[]|e] w2] eqn:Er; [|discriminate].
  returned.
  destruct (R_utils_decompress_returns _ _ _ _ _ Er) as (Hcalm2 & _ & Hx).
  split.
  - destruct Hcalm as [? ?], Hcalm2 as [? ?]. simpl in *.
    split; simpl; congruence.
  - right. split; [done|].
    apply (grown_exists w2); [apply grown_print|].
    apply Hx, storage_paths_nonempty.
Qed.

Lemma retrieve_germline_returns st w w' :
  retrieve_germline st w = (Ok tt, w') → grown w w'.
Proof.
  unfold retrieve_germline, bind, fs_exists, reads, writes, ret, throw.
  destruct (exists_ w (germline_src st)); simpl.
  { returned. apply grown_refl. }
  destruct (is_an_URL (germline_src st)); simpl; [|discriminate].
  destruct (exists_ w (germline_storage_path st </> "germlines.csv")).
  { returned. apply grown_refl. }
  destruct (download_file st (germline_src st)
              (print "Downloading germline mutations..." w))
    as [[file|e] w1] eqn:Ed; [|discriminate].
  apply member_download_file_returns in Ed.
  intros Hu.
  eapply grown_trans; [apply grown_print|].
  eapply grown_trans; [exact Ed|].
  eapply grown_trans; [apply grown_print|].
  by apply (untar_grown _ _ _ _ _ Hu).
Qed.

(** A loop whose body leaves a file behind leaves all of them behind. *)
Lemma for_each_returns {A} (body : A → IO unit) (dest : A → path)
    (l : list A) w w' :
  (∀ x w1 w2, body x w1 = (Ok tt, w2) →
              grown w1 w2 ∧ (dest x ≠ EmptyString → exists_ w2 (dest x) = true)) →
  for_each l body w = (Ok tt, w') →
  grown w w'
  ∧ ∀ x, x ∈ l → dest x ≠ EmptyString → exists_ w' (dest x) = true.
Proof.
  intros Hb. revert w. induction l as [|x l IH]; simpl; intros w.
  - returned. split; [apply grown_refl|]. intros x Hx. by apply elem_of_nil in Hx.
  - unfold bind. destruct (body x w) as [[[]|e] w1] eqn:E; [|discriminate].
    intros H. destruct (Hb _ _ _ E) as [Hg Hx], (IH _ H) as [Hg' Hl].
    split; [by eapply grown_trans|].
    intros y Hy Hd. apply elem_of_cons in Hy as [->|Hy]; [|by apply Hl].
    apply (grown_exists w1); auto.
Qed.

Lemma create_directory_transfers p w r w' :
  create_directory p w = (r, w') →
  transfers w' = transfers w ∧ timeout w' = timeout w.
Proof.
  unfold create_directory.
  destruct (stat w p) as [[|c]|];
    [| | destruct (negb (p =? EmptyString)%string
                   && is_directory w (parent_path (absolute w p)))];
    intros H; by inversion H; subst.
Qed.

(** Whatever its outcome, a call of [download_file] asks the network for its
    URL at most once, under the raised timeout; a call that returns has
    asked for it. *)
Lemma download_file_log url dest w r w' :
  global_download_file url dest w = (r, w') →
  ∃ b : bool,
    transfers w'
    = transfers w
      ++ (if b then [PlainGet url dest (Z.max 1000 (timeout w))] else [])
    ∧ (r = Ok tt → b = true).
Proof.
  unfold global_download_file, bind, fs_exists, reads, getOption_timeout,
    options_timeout, writes, ret.
  assert (∀ w1, timeout w1 = timeout w →
                transfers w1 = transfers w →
                (let (r0, w'0) := download_f url dest (set_timeout (Z.max 1000 (timeout w1)) w1) in
                 match r0 with
                 | Ok _ => (Ok tt, set_timeout (timeout w1) w'0)
                 | Throw e => (Throw e, w'0)
                 end) = (r, w') →
                ∃ b : bool,
                  transfers w'
                  = transfers w
                    ++ (if b then [PlainGet url dest (Z.max 1000 (timeout w))]
                        else [])
                  ∧ (r = Ok tt → b = true))
    as Hcore.
  { intros w1 Ht Htr. unfold download_f. simpl.
    destruct (net w1 !! url) as [c|];
      [match goal with |- context [if ?b then _ else _] => destruct b end|];
      intros H; inversion H; subst; exists true; simpl;
      by rewrite Htr, Ht. }
  destruct (exists_ w (parent_path dest)); simpl.
  - by apply Hcore.
  - destruct (create_directory (parent_path dest) w) as [[b|e] w1] eqn:E;
      destruct (create_directory_transfers _ _ _ _ E) as [Htr Ht].
    + simpl. by apply Hcore.
    + intros H. inversion H; subst. exists false.
      rewrite app_nil_r. by split.
Qed.

(** The plain loop: every file of the list is fetched by a call of
    [download_file] of its own, in the order of the list and each under the
    raised timeout, which each call restores; the loop stops at the first
    call that throws. *)
Lemma for_each_download_log dl w r w' :
  for_each dl (λ e : string * path, global_download_file e.1 e.2) w
  = (r, w') →
  ∃ n,
    transfers w'
    = transfers w
      ++ map (λ e, PlainGet e.1 e.2 (Z.max 1000 (timeout w))) (take n dl)
    ∧ (r = Ok tt →
       n = length dl ∧ grown w w'
       ∧ ∀ e, e ∈ dl → e.2 ≠ EmptyString → exists_ w' e.2 = true).
Proof.
  revert w. induction dl as [|[src dst] dl IH]; intros w; simpl.
  - intros H. inversion H; subst. exists 0%nat. rewrite app_nil_r.
    split; [done|]. intros _. split; [done|]. split; [apply grown_refl|].
    intros e He. by apply elem_of_nil in He.
  - unfold bind at 1.
    destruct (global_download_file src dst w) as [[[]|e] w1] eqn:E.
    + destruct (download_file_returns _ _ _ _ E) as (Hg & Hx & Htr).
      intros H. destruct (IH _ H) as (n & Hn & Hok).
      assert (timeout w1 = timeout w) as Ht by apply Hg.
      exists (S n). simpl. split.
      { rewrite Hn, Htr, Ht. by rewrite <- app_assoc. }
      intros Hr. destruct (Hok Hr) as (-> & Hg' & Hall).
      split; [done|]. split; [by eapply grown_trans|].
      intros e0 He Hd. apply elem_of_cons in He as [->|He]; [|by apply Hall].
      apply (grown_exists w1); [done | by apply Hx].
    + intros H. inversion H; subst.
      destruct (download_file_log _ _ _ _ _ E) as ([] & Hb & _).
      * exists 1%nat. by split.
      * exists 0%nat. by split.
Qed.

(** The loop of the COSMIC session: it asks for the files in the order of
    the list, stops at the first one it cannot fetch or write, and only adds
    files to the disk. *)
Lemma COSMIC_loop_log username dl w r w' :
  for_each dl (λ e : string * path,
    (writes (log_transfer (SessionGet username e.1 e.2)) ;;
     served <- reads (λ w, Ok (net w !! e.1)) ;;
     match served with
     | None =>
         throw (r_error ("Cannot download file at " +:+ quoted e.1 +:+ "."))
     | Some c => writeBin c e.2
     end)%IO) w = (r, w') →
  grown w w'
  ∧ ∃ n, transfers w'
         = transfers w ++ map (λ e, SessionGet username e.1 e.2) (take n dl)
         ∧ (r = Ok tt →
            n = length dl
            ∧ ∀ e, e ∈ dl → e.2 ≠ EmptyString → exists_ w' e.2 = true).
Proof.
  revert w. induction dl as [|[src dst] dl IH]; intros w; simpl.
  - intros H. inversion H; subst. split; [apply grown_refl|].
    exists 0%nat. rewrite app_nil_r. split; [done|]. intros _. split; [done|].
    intros e He. by apply elem_of_nil in He.
  - unfold bind at 1 2 3, writes, reads, throw. simpl.
    destruct (net w !! src) as [c|].
    + destruct (writeBin c dst (log_transfer (SessionGet username src dst) w))
        as [[[]|e] w1] eqn:Ew.
      * destruct (writeBin_returns _ _ _ _ Ew) as (Hg & Ht & Hx).
        intros H. destruct (IH _ H) as (Hg' & n & Hn & Hok).
        assert (grown w w1) as Hg1.
        { eapply grown_trans; [|exact Hg]. split; [by split | done]. }
        split; [by eapply grown_trans|].
        exists (S n). simpl. split.
        { rewrite Hn, Ht. simpl. by rewrite <- app_assoc. }
        intros Hr. destruct (Hok Hr) as [-> Hall]. split; [done|].
        intros e He Hd. apply elem_of_cons in He as [->|He]; [|by apply Hall].
        apply (grown_exists w1); [done | by apply Hx].
      * intros H. inversion H; subst. split.
        { unfold writeBin in Ew.
          match type of Ew with context [if ?b then _ else _] =>
            destruct b end; inversion Ew; subst.
          split; [by split | done]. }
        exists 1%nat. simpl. split; [|done].
        unfold writeBin in Ew.
        match type of Ew with context [if ?b then _ else _] =>
          destruct b end; by inversion Ew; subst.
    + intros H. inversion H; subst. split; [split; [by split | done]|].
      exists 1%nat. simpl. by split.
Qed.

(** The session as a whole: what it asks the network for, in order. The two
    requests of the login come first; a session that returns has made both
    and has fetched and written every file of the list. *)
Lemma COSMIC_session_log username password dl w r w' :
  COSMIC_session username password dl w = (r, w') →
  grown w w'
  ∧ ∃ k n,
      transfers w'
      = transfers w
        ++ take k [SessionOpen cosmic_page; SessionSubmit cosmic_page username]
        ++ map (λ e, SessionGet username e.1 e.2) (take n dl)
      ∧ (n ≠ 0%nat → k = 2%nat)
      ∧ (r = Ok tt →
         k = 2%nat ∧ n = length dl
         ∧ ∀ e, e ∈ dl → e.2 ≠ EmptyString → exists_ w' e.2 = true).
Proof.
  unfold COSMIC_session, rvest_session, html_form_set, session_submit.
  unfold bind at 1 2 3 4 5 6 7 8, reads, writes, throw, ret. simpl.
  destruct (bool_decide ("rvest" ∈ packages w)); simpl.
  2:{ intros H. inversion H; subst. split; [apply grown_refl|].
      exists 0%nat, 0%nat. simpl. rewrite ?take_0, ?app_nil_r. by repeat split. }
  destruct (net w !! cosmic_page) as [page|].
  2:{ intros H. inversion H; subst. split; [split; [by split | done]|].
      exists 1%nat, 0%nat. simpl. by repeat split. }
  destruct (html_form page !! 1%nat) as [form|].
  2:{ intros H. inversion H; subst. split; [split; [by split | done]|].
      exists 1%nat, 0%nat. simpl. by repeat split. }
  destruct (bool_decide ("email" ∈ form) && bool_decide ("pass" ∈ form)).
  2:{ intros H. inversion H; subst. split; [split; [by split | done]|].
      exists 1%nat, 0%nat. simpl. by repeat split. }
  simpl.
  destruct (bool_decide ((username, password) ∈ cosmic_accounts w)); simpl.
  2:{ intros H. inversion H; subst. split; [split; [by split | done]|].
      exists 2%nat, 0%nat. simpl.
      rewrite <- app_assoc. by repeat split. }
  intros H. apply COSMIC_loop_log in H as (Hg & n & Hn & Hok).
  split.
  { eapply grown_trans; [|exact Hg]. split; [by split | done]. }
  exists 2%nat, n. split; [|split; [done|]].
  - rewrite Hn. simpl. by rewrite <- !app_assoc.
  - intros Hr. destruct (Hok Hr) as [-> Hall]. by repeat split.
Qed.

Lemma COSMIC_session_returns username password dl w w' :
  COSMIC_session username password dl w = (Ok tt, w') →
  grown w w'
  ∧ ∀ e, e ∈ dl → e.2 ≠ EmptyString → exists_ w' e.2 = true.
Proof.
  intros H. apply COSMIC_session_log in H as (Hg & k & n & _ & _ & Hok).
  split; [done|]. by destruct (Hok eq_refl) as (_ & _ & ?).
Qed.

Lemma collect_signatures_download_list_covers st w dl0 dl :
  collect_signatures_download_list st SBSType [] w = Ok dl0 →
  collect_signatures_download_list st IDType dl0 w = Ok dl →
  ∀ ty, exists_ w (signatures_storage_path st ty) = true
        ∨ exists_ w (get_signatures_src st ty) = true
        ∨ (get_signatures_src st ty, signatures_storage_path st ty) ∈ dl.
Proof.
  unfold collect_signatures_download_list. simpl.
  destruct (exists_ w (get_directory st </> "SBS_signatures.txt")) eqn:E1;
  destruct (exists_ w (SBS_signatures_src st)) eqn:E2;
  destruct (is_an_URL (SBS_signatures_src st)) eqn:E3; simpl;
  intros H0 H; try discriminate; injection H0 as <-; revert H; simpl;
  destruct (exists_ w (get_directory st </> "indel_signatures.txt")) eqn:E4;
  destruct (exists_ w (indel_signatures_src st)) eqn:E5;
  destruct (is_an_URL (indel_signatures_src st)) eqn:E6; simpl;
  intros H; try discriminate; injection H as <-;
  intros [|]; simpl; rewrite ?E1, ?E2, ?E4, ?E5; auto;
  right; right; set_solver.
Qed.

Lemma retrieve_signatures_returns st account w w' :
  retrieve_signatures st account w = (Ok tt, w') →
  grown w w'
  ∧ ∀ ty, exists_ w' (signatures_storage_path st ty) = true
          ∨ exists_ w' (get_signatures_src st ty) = true.
Proof.
  unfold retrieve_signatures, bind at 1 2 3, reads, writes.
  destruct (collect_signatures_download_list st SBSType [] w) as [dl0|e] eqn:E0;
    [|discriminate].
  destruct (collect_signatures_download_list st IDType dl0 w) as [dl|e] eqn:E1;
    [|discriminate].
  pose proof (collect_signatures_download_list_covers st w dl0 dl E0 E1) as Hcov.
  simpl. unfold bind.
  set (w0 := print "Downloading signature files..." w).
  assert (grown w w0) as Hw0 by apply grown_print.
  assert (∀ w1, grown w0 w1 →
            (∀ e, e ∈ dl → e.2 ≠ EmptyString → exists_ w1 e.2 = true) →
            grown w (print "Signature file downloaded" w1)
            ∧ ∀ ty, exists_ (print "Signature file downloaded" w1)
                      (signatures_storage_path st ty) = true
                    ∨ exists_ (print "Signature file downloaded" w1)
                        (get_signatures_src st ty) = true) as Hend.
  { intros w1 Hg Hdl.
    assert (grown w (print "Signature file downloaded" w1)) as Hall.
    { eapply grown_trans; [exact Hw0|].
      eapply grown_trans; [exact Hg | apply grown_print]. }
    split; [exact Hall|]. intros ty.
    destruct (Hcov ty) as [H|[H|H]].
    - left. by apply (grown_exists w).
    - right. by apply (grown_exists w).
    - left. apply (grown_exists w1); [apply grown_print|].
      apply (Hdl _ H). apply storage_paths_nonempty. }
  destruct (signatures_from_COSMIC dl).
  - destruct (download_COSMIC account dl w0) as [[[]|e] w1] eqn:Ec;
      [|discriminate].
    returned. unfold download_COSMIC in Ec.
    destruct account as [acc|]; [|discriminate].
    destruct (COSMIC_session_returns _ _ _ _ _ Ec). by apply Hend.
  - destruct (for_each dl (λ e, global_download_file e.1 e.2) w0)
      as [[[]|e] w1] eqn:Ef; [|discriminate].
    returned.
    destruct (for_each_returns (λ e : string * path, global_download_file e.1 e.2)
                (λ e : string * path, e.2) dl w0 w1) as [Hg Hd];
      [|exact Ef|by apply Hend].
    intros [src dst] wa wb Hab. simpl in *.
    destruct (download_file_returns _ _ _ _ Hab) as (? & ? & _). done.
Qed.

(** *** Returns without a transfer *)

Lemma retrieve_reference_local st w :
  exists_ w (reference_src st) = true →
  retrieve_reference st w = (Ok (reference_src st), w).
Proof.
  intros H.
  unfold retrieve_reference, bind, fs_exists, reads, ret, get_reference_path.
  simpl. rewrite !H, andb_false_r. simpl. by rewrite !H.
Qed.

Lemma retrieve_reference_cached st w :
  exists_ w (reference_src st) = false →
  is_an_URL (reference_src st) = true →
  exists_ w (reference_storage_path st) = true →
  retrieve_reference st w = (Ok (reference_storage_path st), w).
Proof.
  intros He Hu Hc.
  unfold retrieve_reference, bind, fs_exists, reads, ret, get_reference_path.
  rewrite He, Hu. simpl. by rewrite He, Hc.
Qed.

Lemma retrieve_drivers_local st w :
  exists_ w (drivers_src st) = true → retrieve_drivers st w = (Ok tt, w).
Proof.
  intros H. unfold retrieve_drivers, bind, fs_exists, reads, ret. by rewrite H.
Qed.

Lemma retrieve_drivers_cached st w :
  exists_ w (drivers_src st) = false →
  is_an_URL (drivers_src st) = true →
  exists_ w (driver_mutations_storage_path st) = true →
  retrieve_drivers st w = (Ok tt, w).
Proof.
  intros He Hu Hc.
  unfold retrieve_drivers, bind, fs_exists, reads, ret,
    get_driver_mutations_path.
  rewrite !He, Hu. simpl. by rewrite He, Hc.
Qed.

Lemma retrieve_passenger_CNAs_local st w :
  exists_ w (passenger_CNAs_src st) = true →
  retrieve_passenger_CNAs st w = (Ok tt, w).
Proof.
  intros H. unfold retrieve_passenger_CNAs, bind, fs_exists, reads, ret.
  by rewrite H.
Qed.

Lemma retrieve_passenger_CNAs_cached st w :
  exists_ w (passenger_CNAs_src st) = false →
  is_an_URL (passenger_CNAs_src st) = true →
  exists_ w (passenger_CNAs_storage_path st) = true →
  retrieve_passenger_CNAs st w = (Ok tt, w).
Proof.
  intros He Hu Hc.
  unfold retrieve_passenger_CNAs, bind, fs_exists, reads, ret.
  rewrite He, Hu. simpl. by rewrite Hc.
Qed.

Lemma collect_signatures_download_list_skips st ty dl w :
  exists_ w (signatures_storage_path st ty) = true
  ∨ exists_ w (get_signatures_src st ty) = true →
  collect_signatures_download_list st ty dl w = Ok dl.
Proof.
  unfold collect_signatures_download_list. intros [->| ->]; [done|].
  by destruct (exists_ w (signatures_storage_path st ty)).
Qed.

End Routines.

(** ** The routing of the signature batch *)

Section SignatureRouting.

Local Abbreviation global_download_file := download_file (only parsing).

Import GenomicDataStorage.

(** C4: the remote signature sources that are neither local nor cached
    are collected into one list. When a collected URL matches the COSMIC
    pattern the whole list goes through the authenticated path: without an
    account the routine stops with the error that asks for one, before any
    transfer; with an account the requests made are those of one login
    followed by one request of the session for each entry, in the order of
    the list, and a call that returns has logged in, asked for every entry
    and left every destination on the disk. When no collected URL matches,
    the account plays no part (the outcome is the one without an account)
    and every entry is fetched by a plain download of its own, in the order
    of the list and each under the raised timeout, which is restored after
    it; a call that returns has asked for every entry and left every
    destination on the disk. On either path the requests stop at the first
    one that fails: the requests made are those of a prefix of the list. *)
Theorem retrieve_signatures_routing st w dl0 dl :
  collect_signatures_download_list st SBSType [] w = Ok dl0 →
  collect_signatures_download_list st IDType dl0 w = Ok dl →
  (∀ src dst,
     (src, dst) ∈ dl
     ↔ ∃ ty, src = get_signatures_src st ty
             ∧ dst = signatures_storage_path st ty
             ∧ exists_ w dst = false
             ∧ exists_ w src = false
             ∧ is_an_URL src = true)
  ∧ ((∃ e, e ∈ dl ∧ COSMIC_site_regex_search e.1 = true) →
     retrieve_signatures st None w
     = (Throw (r_error COSMIC_account_required),
        print "Downloading signature files..." w)
     ∧ ∀ account r w',
         retrieve_signatures st (Some account) w = (r, w') →
         ∃ k n,
           transfers w'
           = transfers w
             ++ take k [SessionOpen cosmic_page;
                        SessionSubmit cosmic_page (get_username account)]
             ++ map (λ e, SessionGet (get_username account) e.1 e.2)
                    (take n dl)
           ∧ (n ≠ 0%nat → k = 2%nat)
           ∧ (r = Ok tt →
              k = 2%nat ∧ n = length dl
              ∧ ∀ e, e ∈ dl → exists_ w' e.2 = true))
  ∧ ((∀ e, e ∈ dl → COSMIC_site_regex_search e.1 = false) →
     ∀ account r w',
       retrieve_signatures st account w = (r, w') →
       retrieve_signatures st None w = (r, w')
       ∧ ∃ n,
           transfers w'
           = transfers w
             ++ map (λ e, PlainGet e.1 e.2 (Z.max 1000 (timeout w)))
                    (take n dl)
           ∧ (r = Ok tt →
              n = length dl ∧ timeout w' = timeout w
              ∧ ∀ e, e ∈ dl → exists_ w' e.2 = true)).
Proof.
  intros H0 H.
  pose proof (collect_signatures_download_list_elem st w dl0 dl H0 H) as Hdl.
  assert (∀ e, e ∈ dl → e.2 ≠ EmptyString) as Hne.
  { intros [src dst] He. apply Hdl in He as (ty & _ & -> & _).
    apply storage_paths_nonempty. }
  split; [exact Hdl|]. split.
  - intros Hc. apply signatures_from_COSMIC_true in Hc.
    unfold retrieve_signatures, bind, reads, writes. rewrite H0, H. simpl.
    rewrite Hc. split; [reflexivity|]. intros account r w'.
    destruct (COSMIC_session (get_username account) (get_password account) dl
                (print "Downloading signature files..." w))
      as [[[]|e] w1] eqn:Ec; intros Hr; inversion Hr; subst;
      apply COSMIC_session_log in Ec as (Hg & k & n & Htr & Hk & Hok);
      exists k, n; (split; [exact Htr|]); (split; [exact Hk|]).
    + intros _. destruct (Hok eq_refl) as (-> & -> & Hall).
      split; [done|]. split; [done|]. intros e He.
      apply (grown_exists w1); [apply grown_print|].
      apply Hall; [done | by apply Hne].
    + discriminate.
  - intros Hn account r w'. apply signatures_from_COSMIC_false in Hn.
    unfold retrieve_signatures, bind, reads, writes. rewrite H0, H. simpl.
    rewrite Hn. intros Hr. split; [exact Hr|]. revert Hr.
    destruct (for_each dl (λ e, global_download_file e.1 e.2)
                (print "Downloading signature files..." w))
      as [[[]|e] w1] eqn:Ef; intros Hr; inversion Hr; subst;
      apply for_each_download_log in Ef as (n & Htr & Hok);
      exists n; (split; [exact Htr|]).
    + intros _. destruct (Hok eq_refl) as (-> & Hg & Hall).
      split; [done|]. split; [apply Hg|]. intros e He.
      apply (grown_exists w1); [apply grown_print|].
      apply Hall; [done | by apply Hne].
    + discriminate.
Qed.

Lemma retrieve_signatures_routing_witness :
  retrieve_signatures Sample.store None Sample.online_disk
  = (Throw (r_error COSMIC_account_required),
     print "Downloading signature files..." Sample.online_disk)
  ∧ ∀ account r w',
      retrieve_signatures Sample.store (Some account) Sample.online_disk
      = (r, w') →
      ∃ k n,
        transfers w'
        = transfers Sample.online_disk
          ++ take k [SessionOpen cosmic_page;
                     SessionSubmit cosmic_page (get_username account)]
          ++ map (λ e, SessionGet (get_username account) e.1 e.2)
                 (take n [("https://cancer.sanger.ac.uk/signatures/SBS.txt",
                           "/store/SBS_signatures.txt");
                          ("https://zenodo.org/records/1/ID.txt?download=1",
                           "/store/indel_signatures.txt")])
        ∧ (n ≠ 0%nat → k = 2%nat)
        ∧ (r = Ok tt →
           k = 2%nat
           ∧ n = length [("https://cancer.sanger.ac.uk/signatures/SBS.txt",
                          "/store/SBS_signatures.txt");
                         ("https://zenodo.org/records/1/ID.txt?download=1",
                          "/store/indel_signatures.txt")]
           ∧ ∀ e, e ∈ [("https://cancer.sanger.ac.uk/signatures/SBS.txt",
                        "/store/SBS_signatures.txt");
                       ("https://zenodo.org/records/1/ID.txt?download=1",
                        "/store/indel_signatures.txt")] →
                  exists_ w' e.2 = true).
Proof.
  refine (proj1 (proj2 (retrieve_signatures_routing
            Sample.store Sample.online_disk
            [("https://cancer.sanger.ac.uk/signatures/SBS.txt",
              "/store/SBS_signatures.txt")]
            [("https://cancer.sanger.ac.uk/signatures/SBS.txt",
              "/store/SBS_signatures.txt");
             ("https://zenodo.org/records/1/ID.txt?download=1",
              "/store/indel_signatures.txt")]
            eq_refl eq_refl)) _).
  exists ("https://cancer.sanger.ac.uk/signatures/SBS.txt",
          "/store/SBS_signatures.txt").
  split; [left | reflexivity].
Defined.

(** The batches of the sample stores: one COSMIC URL sends both files
    through the session of the account, after the two requests of the
    login; without any COSMIC URL both files are downloaded plainly and no
    account is asked for. *)
Lemma retrieve_signatures_samples :
  (retrieve_signatures Sample.store
     (Some (mkAccount "user@host" "secret")) Sample.online_disk).1 = Ok tt
  ∧ transfers (retrieve_signatures Sample.store
                 (Some (mkAccount "user@host" "secret")) Sample.online_disk).2
    = [SessionOpen "https://cancer.sanger.ac.uk/cosmic/login";
       SessionSubmit "https://cancer.sanger.ac.uk/cosmic/login" "user@host";
       SessionGet "user@host" "https://cancer.sanger.ac.uk/signatures/SBS.txt"
                  "/store/SBS_signatures.txt";
       SessionGet "user@host" "https://zenodo.org/records/1/ID.txt?download=1"
                  "/store/indel_signatures.txt"]
  ∧ (retrieve_signatures Sample.store_without_COSMIC None
       Sample.online_disk).1 = Ok tt
  ∧ transfers (retrieve_signatures Sample.store_without_COSMIC None
                 Sample.online_disk).2
    = [PlainGet "https://zenodo.org/records/1/SBS.txt"
                "/store/SBS_signatures.txt" 1000;
       PlainGet "https://zenodo.org/records/1/ID.txt?download=1"
                "/store/indel_signatures.txt" 1000].
Proof. repeat split; vm_compute; reflexivity. Qed.

(** On a network that serves neither signature file the plain loop stops
    at the first entry: the second file is never asked for. *)
Lemma retrieve_signatures_stops_at_first_failure :
  (retrieve_signatures Sample.store_without_COSMIC None
     Sample.empty_disk).1
  = Throw (r_error "cannot open URL 'https://zenodo.org/records/1/SBS.txt'")
  ∧ transfers (retrieve_signatures Sample.store_without_COSMIC None
                 Sample.empty_disk).2
    = [PlainGet "https://zenodo.org/records/1/SBS.txt"
                "/store/SBS_signatures.txt" 1000].
Proof. split; vm_compute; reflexivity. Qed.

End SignatureRouting.

(** ** Validation of the germline directory *)

Section GermlineValidation.
Import GermlineStorage.

Lemma construct_returns dir w gs :
  construct dir w = Ok gs →
  gs = Make dir
  ∧ is_directory w dir = true
  ∧ exists_ w (get_file (Make dir)) = true
  ∧ exists_ w (get_population_file (Make dir)) = true
  ∧ exists_ w (get_population_descriptions_file (Make dir)) = true
  ∧ exists_ w (get_alleles_file (Make dir)) = true.
Proof.
  unfold construct.
  repeat match goal with
         | |- context [if negb ?b then _ else _] =>
             destruct b eqn:?; simpl; [|discriminate]
         end.
  by intros [= <-].
Qed.

(** The constructor of [GermlineStorage] returns exactly when the path is
    a directory that holds the four files, and the storage it returns is
    the one over that path. *)
Theorem construct_validates dir w gs :
  construct dir w = Ok gs
  ↔ gs = Make dir
    ∧ is_directory w dir = true
    ∧ exists_ w (get_file (Make dir)) = true
    ∧ exists_ w (get_population_file (Make dir)) = true
    ∧ exists_ w (get_population_descriptions_file (Make dir)) = true
    ∧ exists_ w (get_alleles_file (Make dir)) = true.
Proof.
  split; [apply construct_returns|].
  intros (-> & Hd & H1 & H2 & H3 & H4). by apply construct_complete.
Qed.

End GermlineValidation.

(** ** Running a retrieval twice *)

Section Idempotence.
Import GenomicDataStorage.

(** Once a retrieval routine has returned, running it again on the world
    it left transfers nothing: the routines for the drivers, the passenger
    CNAs and the reference return with that world unchanged, and
    [retrieve_signatures], with or without an account, only prints its two
    messages. *)
Theorem retrieval_is_idempotent st w w' :
  (retrieve_drivers st w = (Ok tt, w') →
   retrieve_drivers st w' = (Ok tt, w'))
  ∧ (retrieve_passenger_CNAs st w = (Ok tt, w') →
     retrieve_passenger_CNAs st w' = (Ok tt, w'))
  ∧ (∀ p, retrieve_reference st w = (Ok p, w') →
          ∃ p', retrieve_reference st w' = (Ok p', w'))
  ∧ (∀ account, retrieve_signatures st account w = (Ok tt, w') →
     ∀ account',
       retrieve_signatures st account' w'
       = (Ok tt, print "Signature file downloaded"
                   (print "Downloading signature files..." w'))).
Proof.
  split; [|split; [|split]].
  - intros H. destruct (retrieve_drivers_returns _ _ _ H) as [_ [He|[Hu Hc]]].
    + by apply retrieve_drivers_local.
    + destruct (exists_ w' (drivers_src st)) eqn:He.
      * by apply retrieve_drivers_local.
      * by apply retrieve_drivers_cached.
  - intros H.
    destruct (retrieve_passenger_CNAs_returns _ _ _ H) as [_ [He|[Hu Hc]]].
    + by apply retrieve_passenger_CNAs_local.
    + destruct (exists_ w' (passenger_CNAs_src st)) eqn:He.
      * by apply retrieve_passenger_CNAs_local.
      * by apply retrieve_passenger_CNAs_cached.
  - intros p H.
    destruct (retrieve_reference_returns _ _ _ _ H) as [_ [He|[Hu Hc]]].
    + exists (reference_src st). by apply retrieve_reference_local.
    + destruct (exists_ w' (reference_src st)) eqn:He.
      * exists (reference_src st). by apply retrieve_reference_local.
      * exists (reference_storage_path st). by apply retrieve_reference_cached.
  - intros account H account'.
    destruct (retrieve_signatures_returns _ _ _ _ H) as [_ Hty].
    unfold retrieve_signatures, bind, reads, writes.
    rewrite !collect_signatures_download_list_skips by apply Hty.
    reflexivity.
Qed.

Lemma retrieval_is_idempotent_witness :
  retrieve_drivers Sample.store
    (retrieve_drivers Sample.store Sample.mutations_disk).2
  = (Ok tt, (retrieve_drivers Sample.store Sample.mutations_disk).2)
  ∧ transfers (retrieve_drivers Sample.store Sample.mutations_disk).2
    = [PlainGet "https://host/drivers.txt" "/store/drivers.txt" 1000].
Proof.
  split; [|vm_compute; reflexivity].
  apply (proj1 (retrieval_is_idempotent Sample.store Sample.mutations_disk
                  (retrieve_drivers Sample.store Sample.mutations_disk).2)).
  vm_compute. reflexivity.
Defined.

End Idempotence.

(** ** What a constructed store guarantees *)

Section Construction.
Import GenomicDataStorage.

Lemma resolved_exists w w' src storage :
  grown w w' →
  exists_ w src = true ∨ exists_ w storage = true →
  exists_ w' (if exists_ w' src then src else storage) = true.
Proof.
  intros Hg H. destruct (exists_ w' src) eqn:E; [done|].
  destruct H as [H|H]; [|by apply (grown_exists w)].
  apply (grown_exists w w') in H; [congruence | done].
Qed.

Lemma construct_returns_store account dir r s i d c g w st w' :
  construct account dir r s i d c g w = (Ok st, w') →
  st = Make (absolute w dir) (germline_storage st) r s i d c g
  ∧ calm w w'
  ∧ GermlineStorage.construct (get_germline_path st w') w'
    = Ok (germline_storage st)
  ∧ exists_ w' (get_reference_path st w') = true
  ∧ (∀ ty, exists_ w' (get_signatures_path st ty w') = true)
  ∧ exists_ w' (get_driver_mutations_path st w') = true
  ∧ exists_ w' (get_passenger_CNAs_path st w') = true.
Proof.
  unfold construct, bind, reads, ret.
  destruct (filesystem_absolute dir w) as [abs|e] eqn:E0; [|discriminate].
  assert (abs = absolute w dir) as ->.
  { unfold filesystem_absolute in E0. destruct dir; [discriminate|].
    by inversion E0. }
  set (st0 := Make (absolute w dir) GermlineStorage.default r s i d c g).
  destruct (create_directory dir w) as [[b|e] w1] eqn:E1; [|discriminate].
  destruct (retrieve_reference st0 w1) as [[p|e] w2] eqn:E2; [|discriminate].
  destruct (retrieve_signatures st0 account w2) as [[[]|e] w3] eqn:E3;
    [|discriminate].
  destruct (retrieve_drivers st0 w3) as [[[]|e] w4] eqn:E4; [|discriminate].
  destruct (retrieve_passenger_CNAs st0 w4) as [[[]|e] w5] eqn:E5;
    [|discriminate].
  destruct (retrieve_germline st0 w5) as [[[]|e] w6] eqn:E6; [|discriminate].
  destruct (GermlineStorage.construct (get_germline_path st0 w6) w6)
    as [gs|e] eqn:E7; [|discriminate].
  intros H. inversion H; subst; clear H.
  apply create_directory_grown in E1.
  apply retrieve_reference_returns in E2 as [Hc2 Hx2].
  apply retrieve_signatures_returns in E3 as [Hg3 Hx3].
  apply retrieve_drivers_returns in E4 as [Hg4 Hx4].
  apply retrieve_passenger_CNAs_returns in E5 as [Hg5 Hx5].
  apply retrieve_germline_returns in E6.
  assert (grown w4 w') as G4 by (by eapply grown_trans).
  assert (grown w3 w') as G3 by (by eapply grown_trans).
  assert (grown w2 w') as G2 by (by eapply grown_trans).
  split; [reflexivity|]. split.
  { eapply calm_trans; [apply grown_calm, E1|].
    eapply calm_trans; [exact Hc2 | by apply grown_calm]. }
  split; [exact E7|].
  split; [|split; [|split]].
  - apply (resolved_exists w2); [done|]. tauto.
  - intros ty. unfold get_signatures_path.
    apply (resolved_exists w3); [done|].
    destruct (Hx3 ty); [by right | by left].
  - apply (resolved_exists w4); [done|]. tauto.
  - apply (resolved_exists w5); [done|]. tauto.
Qed.



(** A construction that returns gives a store whose directory is the
    absolute form of the one asked for, whose sources are the ones given,
    and every dataset of which resolves, in the world it leaves, to a path
    that exists; its germline storage is the validated storage over the
    resolved germline path, a directory that holds the four germline
    files. *)
Theorem construct_resolves_every_dataset account dir r s i d c g w st w' :
  construct account dir r s i d c g w = (Ok st, w') →
  st = Make (absolute w dir) (GermlineStorage.Make (get_germline_path st w'))
            r s i d c g
  ∧ exists_ w' (get_reference_path st w') = true
  ∧ (∀ ty, exists_ w' (get_signatures_path st ty w') = true)
  ∧ exists_ w' (get_driver_mutations_path st w') = true
  ∧ exists_ w' (get_passenger_CNAs_path st w') = true
  ∧ is_directory w' (get_germline_path st w') = true
  ∧ exists_ w' (GermlineStorage.get_file (germline_storage st)) = true
  ∧ exists_ w' (GermlineStorage.get_population_file (germline_storage st)) = true
  ∧ exists_ w' (GermlineStorage.get_population_descriptions_file
                  (germline_storage st)) = true
  ∧ exists_ w' (GermlineStorage.get_alleles_file (germline_storage st)) = true.
Proof.
  intros H. destruct (construct_returns_store _ _ _ _ _ _ _ _ _ _ _ H)
    as (Hst & _ & Hgs & Hr & Hs & Hd & Hc).
  apply construct_returns in Hgs as (Hgs & Hdir & H1 & H2 & H3 & H4).
  rewrite Hgs. split; [by rewrite <- Hgs|]. tauto.
Qed.

Lemma construct_resolves_every_dataset_witness :
  exists_ Sample.build.2 "/store/reference.fasta" = true
  ∧ exists_ Sample.build.2 "/store/germline_data/population.csv" = true.
Proof.
  destruct (construct_resolves_every_dataset None "/store"
              "https://host/genome.fa.gz"
              "https://zenodo.org/records/1/SBS.txt"
              "https://zenodo.org/records/1/ID.txt?download=1"
              "https://host/drivers.txt" "https://host/cnas.txt"
              "https://host/germline.tar.gz"
              Sample.everything_online Sample.built_store Sample.build.2)
    as (_ & Hr & _ & _ & _ & _ & _ & Hp & _).
  { vm_compute. reflexivity. }
  split; [|exact Hp].
  replace "/store/reference.fasta"
    with (get_reference_path Sample.built_store Sample.build.2); [exact Hr|].
  vm_compute. reflexivity.
Defined.

End Construction.

(** ** Reading the population file *)

Section PopulationFile.
Import GermlineStorage.

Lemma get_population_rows_complete rs ss acc :
  Forall2 (λ row s, row !! 0%nat = Some (name s)
                    ∧ row !! 1%nat = Some (population s)
                    ∧ row !! 2%nat = Some (super_population s)
                    ∧ row !! 3%nat = Some (gender s)) rs ss →
  get_population_rows rs acc = Ok (acc ++ ss).
Proof.
  intros HF. revert acc.
  induction HF as [|row s rs ss (H0 & H1 & H2 & H3) HF IH]; intros acc; simpl.
  - by rewrite app_nil_r.
  - unfold CSVReader.get_field. rewrite H0, H1, H2, H3. simpl.
    rewrite IH, <- app_assoc. by destruct s.
Qed.

(** Over a population file that the reader opens, [get_population]
    returns a list exactly when that list has one subject per data row, in
    the order of the file, each made of the first four fields of its row:
    rows are neither skipped nor merged, further fields are ignored, and a
    row with fewer than four fields makes the whole call throw. *)
Theorem get_population_follows_file gs w reader subjects :
  CSVReader.open (get_population_file gs) true w = Ok reader →
  (get_population gs w = Ok subjects
   ↔ Forall2 (λ row s, row !! 0%nat = Some (name s)
                       ∧ row !! 1%nat = Some (population s)
                       ∧ row !! 2%nat = Some (super_population s)
                       ∧ row !! 3%nat = Some (gender s))
             (CSVReader.rows reader) subjects)
  ∧ ((∃ row, row ∈ CSVReader.rows reader ∧ (length row < 4)%nat) →
     ∃ e, get_population gs w = Throw e).
Proof.
  intros Hopen. unfold get_population. rewrite Hopen. simpl. split; [split|].
  - intros H. by destruct (get_population_rows_inv _ _ _ H) as (ss & -> & HF).
  - intros HF. by apply (get_population_rows_complete _ _ []).
  - intros (row & Hin & Hlen).
    destruct (get_population_rows (CSVReader.rows reader) []) as [l|e] eqn:E;
      [|eauto].
    exfalso. destruct (get_population_rows_inv _ _ _ E) as (ss & _ & HF).
    apply list_elem_of_lookup in Hin as [i Hi].
    destruct (Forall2_lookup_l _ _ _ _ _ HF Hi) as (s & _ & _ & _ & _ & H3).
    apply lookup_lt_Some in H3. lia.
Qed.

Lemma get_population_follows_file_witness :
  get_population Sample.germline Sample.germline_disk
  = Ok [mkGermlineSubject "HG00096" "GBR" "EUR" "male";
        mkGermlineSubject "HG00097" "GBR" "EUR" "female";
        mkGermlineSubject "NA18525" "CHB" "EAS" "male"].
Proof.
  apply (proj1 (get_population_follows_file Sample.germline Sample.germline_disk
                  (CSVReader.Reader ["sample"; "pop"; "super_pop"; "gender"]
                                    (tail Sample.population_lines))
                  _ eq_refl)).
  repeat constructor.
Defined.

(** [get_subject] reads the population file up to the first row whose
    first field is the name and answers from that row alone: the rows
    after it, well formed or not, play no part. *)
Theorem get_subject_first_match gs w reader pre row post n f1 f2 f3 :
  CSVReader.open (get_population_file gs) true w = Ok reader →
  CSVReader.rows reader = pre ++ row :: post →
  Forall (λ r, ∃ f, r !! 0%nat = Some f ∧ f ≠ n) pre →
  row !! 0%nat = Some n → row !! 1%nat = Some f1 →
  row !! 2%nat = Some f2 → row !! 3%nat = Some f3 →
  get_subject gs n w = Ok (mkGermlineSubject n f1 f2 f3).
Proof.
  intros Hopen Hrows Hpre H0 H1 H2 H3.
  unfold get_subject. rewrite Hopen. simpl. rewrite Hrows. clear Hrows Hopen.
  induction Hpre as [|r pre (f & Hf & Hne) _ IH]; simpl.
  - unfold CSVReader.get_field. rewrite H0, H1, H2, H3. simpl.
    by rewrite String.eqb_refl.
  - unfold CSVReader.get_field at 1. rewrite Hf. simpl.
    by destruct (String.eqb_spec f n).
Qed.

Lemma get_subject_first_match_witness :
  get_subject Sample.germline "HG00096" Sample.twins_disk
  = Ok (mkGermlineSubject "HG00096" "GBR" "EUR" "male").
Proof.
  apply (get_subject_first_match Sample.germline Sample.twins_disk
           (CSVReader.Reader ["sample"; "pop"; "super_pop"; "gender"]
              [["HG00096"; "GBR"; "EUR"; "male"];
               ["HG00096"; "CHB"; "EAS"; "female"]])
           [] ["HG00096"; "GBR"; "EUR"; "male"]
           [["HG00096"; "CHB"; "EAS"; "female"]]);
    (reflexivity || constructor).
Defined.

End PopulationFile.

(** ** Reading the alleles file *)

Section AllelesFile.
Import GermlineStorage.

Variable stochr : string → result N.
Variable stoul : string → result N.

(** [find_index] answers the first position of the gender in the header,
    and nothing when the header does not hold it. *)
Lemma find_index_first header g :
  match find_index header g with
  | Some i => header !! i = Some g ∧ ∀ j, (j < i)%nat → header !! j ≠ Some g
  | None => g ∉ header
  end.
Proof.
  induction header as [|h header IH]; simpl.
  - apply not_elem_of_nil.
  - destruct (String.eqb_spec h g) as [->|Hne].
    + split; [done|]. intros j Hj. lia.
    + destruct (find_index header g) as [i|]; simpl.
      * destruct IH as [Hi Hfirst]. split; [done|].
        intros [|j] Hj; simpl; [congruence|]. apply Hfirst. lia.
      * intros [?|?]%elem_of_cons; done.
Qed.

Lemma get_alleles_rows_from rs index (m0 m : gmap N N) k v :
  get_alleles_rows stochr stoul rs index m0 = Ok m →
  m !! k = Some v →
  m0 !! k = Some v
  ∨ ∃ row name0 field,
      row ∈ rs ∧ row !! 0%nat = Some name0 ∧ stochr name0 = Ok k
      ∧ row !! index = Some field ∧ stoul field = Ok v.
Proof.
  revert m0. induction rs as [|row rs IH]; simpl; intros m0 H Hk.
  - injection H as <-. by left.
  - unfold CSVReader.get_field in H.
    destruct (row !! 0%nat) as [n0|] eqn:E0; simpl in H; [|done].
    destruct (stochr n0) as [c|] eqn:Ec; simpl in H; [|done].
    destruct (row !! index) as [f|] eqn:Ef; simpl in H; [|done].
    destruct (stoul f) as [x|] eqn:Ex; simpl in H; [|done].
    destruct (IH _ H Hk) as [Hm|(r & n & fl & Hin & ?)].
    + unfold map_insert in Hm. destruct (m0 !! c) eqn:Emc; [by left|].
      destruct (decide (c = k)) as [->|Hne].
      * rewrite lookup_insert_eq in Hm. injection Hm as ->.
        right. exists row, n0, f. split; [left | done].
      * rewrite lookup_insert_ne in Hm by done. by left.
    + right. exists r, n, fl. split; [by right | done].
Qed.

Lemma get_alleles_rows_covers rs index (m0 m : gmap N N) row name0 k :
  get_alleles_rows stochr stoul rs index m0 = Ok m →
  row ∈ rs → row !! 0%nat = Some name0 → stochr name0 = Ok k →
  is_Some (m !! k).
Proof.
  revert m0. induction rs as [|r rs IH]; simpl; intros m0 H Hin Hn Hk.
  - by apply elem_of_nil in Hin.
  - unfold CSVReader.get_field in H.
    destruct (r !! 0%nat) as [n0|] eqn:E0; simpl in H; [|done].
    destruct (stochr n0) as [c|] eqn:Ec; simpl in H; [|done].
    destruct (r !! index) as [f|] eqn:Ef; simpl in H; [|done].
    destruct (stoul f) as [x|] eqn:Ex; simpl in H; [|done].
    apply elem_of_cons in Hin as [->|Hin]; [|by eapply IH].
    assert (c = k) as -> by congruence.
    assert (is_Some (map_insert k x m0 !! k)) as [v Hv].
    { unfold map_insert. destruct (m0 !! k) eqn:E; [by rewrite E|].
      rewrite lookup_insert_eq. eauto. }
    exists v. by apply (get_alleles_rows_keeps _ _ _ _ _ _ _ _ H).
Qed.

(** A gender that the header of the alleles file does not hold is refused
    with the error that names it, whatever the data rows are. *)
Theorem unknown_gender_refused gs gender w reader :
  CSVReader.open (get_alleles_file gs) true w = Ok reader →
  gender ∉ CSVReader.get_header reader →
  get_alleles_per_chromosome stochr stoul gs gender w
  = Throw (runtime_error ("Unknown gender " +:+ gender +:+ ".")).
Proof.
  intros Hopen Hg. unfold get_alleles_per_chromosome. rewrite Hopen. simpl.
  pose proof (find_index_first (CSVReader.get_header reader) gender) as H.
  destruct (find_index (CSVReader.get_header reader) gender) as [i|]; [|done].
  destruct H as [Hi _]. exfalso. apply Hg. by eapply list_elem_of_lookup_2.
Qed.

(** When [get_alleles_per_chromosome] returns a map, the gender is a
    column of the header, the first of that name; the keys of the map are
    exactly the chromosomes that the first fields of the data rows parse
    to; and the count of each key is read, in that column, from a row of
    its chromosome. *)
Theorem get_alleles_per_chromosome_contents gs gender w reader (m : gmap N N) :
  CSVReader.open (get_alleles_file gs) true w = Ok reader →
  get_alleles_per_chromosome stochr stoul gs gender w = Ok m →
  ∃ index,
    CSVReader.get_header reader !! index = Some gender
    ∧ (∀ j, (j < index)%nat → CSVReader.get_header reader !! j ≠ Some gender)
    ∧ (∀ k, is_Some (m !! k)
            ↔ ∃ row name0, row ∈ CSVReader.rows reader
                           ∧ row !! 0%nat = Some name0 ∧ stochr name0 = Ok k)
    ∧ (∀ k v, m !! k = Some v →
              ∃ row name0 field,
                row ∈ CSVReader.rows reader
                ∧ row !! 0%nat = Some name0 ∧ stochr name0 = Ok k
                ∧ row !! index = Some field ∧ stoul field = Ok v).
Proof.
  intros Hopen H. unfold get_alleles_per_chromosome in H.
  rewrite Hopen in H. simpl in H.
  pose proof (find_index_first (CSVReader.get_header reader) gender) as Hf.
  destruct (find_index (CSVReader.get_header reader) gender) as [index|];
    [|discriminate].
  destruct Hf as [Hi Hfirst]. exists index.
  split; [done|]. split; [done|].
  assert (∀ k v, m !! k = Some v →
            ∃ row name0 field,
              row ∈ CSVReader.rows reader
              ∧ row !! 0%nat = Some name0 ∧ stochr name0 = Ok k
              ∧ row !! index = Some field ∧ stoul field = Ok v) as Hfrom.
  { intros k v Hk.
    destruct (get_alleles_rows_from _ _ _ _ _ _ H Hk) as [He|?]; [|done].
    by rewrite lookup_empty in He. }
  split; [|exact Hfrom].
  intros k. split.
  - intros [v Hv]. destruct (Hfrom k v Hv) as (row & n0 & f & ? & ? & ? & _).
    by exists row, n0.
  - intros (row & n0 & Hin & Hn & Hk).
    by apply (get_alleles_rows_covers _ _ _ _ _ _ _ H Hin Hn Hk).
Qed.

End AllelesFile.

Section AllelesFileSample.
Import GermlineStorage.

Lemma unknown_gender_refused_witness :
  get_alleles_per_chromosome Sample.stochr Sample.stoul
    Sample.germline "other" Sample.germline_disk
  = Throw (runtime_error "Unknown gender other.").
Proof.
  apply (unknown_gender_refused Sample.stochr Sample.stoul
           Sample.germline "other" Sample.germline_disk
           (CSVReader.Reader ["chr"; "male"; "female"]
                             (tail Sample.alleles_lines)) eq_refl).
  intros H. repeat (apply elem_of_cons in H as [H|H]; [discriminate|]).
  by apply elem_of_nil in H.
Defined.

Lemma get_alleles_per_chromosome_contents_witness :
  ∃ index,
    ["chr"; "male"; "female"] !! index = Some "female"
    ∧ (∀ j, (j < index)%nat → ["chr"; "male"; "female"] !! j ≠ Some "female")
    ∧ (∀ k, is_Some (({[ 1 := 2; 23 := 2; 24 := 0 ]}%N : gmap N N) !! k)
            ↔ ∃ row name0, row ∈ tail Sample.alleles_lines
                           ∧ row !! 0%nat = Some name0
                           ∧ Sample.stochr name0 = Ok k)
    ∧ (∀ k v, ({[ 1 := 2; 23 := 2; 24 := 0 ]}%N : gmap N N) !! k = Some v →
              ∃ row name0 field,
                row ∈ tail Sample.alleles_lines
                ∧ row !! 0%nat = Some name0 ∧ Sample.stochr name0 = Ok k
                ∧ row !! index = Some field ∧ Sample.stoul field = Ok v).
Proof.
  apply (get_alleles_per_chromosome_contents Sample.stochr Sample.stoul
           Sample.germline "female" Sample.germline_disk
           (CSVReader.Reader ["chr"; "male"; "female"]
                             (tail Sample.alleles_lines))
           ({[ 1 := 2; 23 := 2; 24 := 0 ]}%N) eq_refl).
  vm_compute. reflexivity.
Defined.

End AllelesFileSample.

(** ** The COSMIC session *)

Section CosmicSession.

(** X15: with an account, [download_COSMIC] fails before it asks for any
    file of the list when the package rvest is missing, and again when the
    credentials are not accepted. Without rvest no request is made at all
    and the world is left as it was. With rvest and credentials that COSMIC
    does not accept, the call throws; the only requests made are those of
    the login, in their order (the login page is opened, then the form is
    submitted), none of them for a file of the list; the disk and the
    timeout are left as they were. When the login page is served with a
    second form that has the fields email and pass, both requests are made
    and the error is the one on the username and password. *)
Theorem download_COSMIC_refuses_before_fetching account dl w :
  ("rvest" ∉ packages w →
   download_COSMIC (Some account) dl w
   = (Throw (r_error ("The package " +:+ quoted "rvest"
                      +:+ " is mandatory to download  signatures from COSMIC.")),
      w))
  ∧ ("rvest" ∈ packages w →
     (get_username account, get_password account) ∉ cosmic_accounts w →
     ∃ e k w',
       download_COSMIC (Some account) dl w = (Throw e, w')
       ∧ fs w' = fs w ∧ timeout w' = timeout w
       ∧ (1 ≤ k)%nat
       ∧ transfers w'
         = transfers w
           ++ take k [SessionOpen cosmic_page;
                      SessionSubmit cosmic_page (get_username account)]
       ∧ (∀ forms form,
            net w !! cosmic_page = Some (Page forms) →
            forms !! 1%nat = Some form →
            "email" ∈ form → "pass" ∈ form →
            e = r_error "Wrong COSMIC username/password" ∧ k = 2%nat)).
Proof.
  unfold download_COSMIC, COSMIC_session, rvest_session, html_form_set,
    session_submit.
  unfold bind at 1 2 3 4 5 6 7 8 9 10 11 12 13 14 15 16, reads, writes,
    throw, ret. split.
  - intros H. by rewrite bool_decide_eq_false_2.
  - intros H1 H2. rewrite bool_decide_eq_true_2 by done. simpl.
    destruct (net w !! cosmic_page) as [page|] eqn:Epage.
    2:{ eexists _, 1%nat, _. split; [reflexivity|]. simpl.
        do 4 (split; [done|]). intros forms form [=]. }
    destruct (html_form page !! 1%nat) as [form|] eqn:Eform.
    2:{ eexists _, 1%nat, _. split; [reflexivity|]. simpl.
        do 4 (split; [done|]). intros forms form [= ->] Hf.
        simpl in Eform. congruence. }
    destruct (bool_decide ("email" ∈ form) && bool_decide ("pass" ∈ form))
      eqn:Efields.
    2:{ eexists _, 1%nat, _. split; [reflexivity|]. simpl.
        do 4 (split; [done|]). intros forms form' [= ->] Hf He Hp.
        simpl in Eform. assert (form' = form) as -> by congruence.
        apply andb_false_iff in Efields as [E|E];
          apply bool_decide_eq_false_1 in E; done. }
    unfold bind. simpl. rewrite bool_decide_eq_false_2 by done. simpl.
    eexists _, 2%nat, _. split; [reflexivity|]. simpl.
    do 2 (split; [done|]). split; [lia|].
    split; [by rewrite <- app_assoc|]. done.
Qed.

Lemma download_COSMIC_refuses_before_fetching_witness :
  ∃ e k w',
    download_COSMIC (Some (mkAccount "user@host" "guess"))
      [("https://cancer.sanger.ac.uk/signatures/SBS.txt",
        "/store/SBS_signatures.txt")] Sample.online_disk = (Throw e, w')
    ∧ fs w' = fs Sample.online_disk
    ∧ timeout w' = timeout Sample.online_disk
    ∧ (1 ≤ k)%nat
    ∧ transfers w'
      = transfers Sample.online_disk
        ++ take k [SessionOpen cosmic_page;
                   SessionSubmit cosmic_page
                     (get_username (mkAccount "user@host" "guess"))]
    ∧ (∀ forms form,
         net Sample.online_disk !! cosmic_page = Some (Page forms) →
         forms !! 1%nat = Some form →
         "email" ∈ form → "pass" ∈ form →
         e = r_error "Wrong COSMIC username/password" ∧ k = 2%nat).
Proof.
  apply (proj2 (download_COSMIC_refuses_before_fetching
                  (mkAccount "user@host" "guess")
                  [("https://cancer.sanger.ac.uk/signatures/SBS.txt",
                    "/store/SBS_signatures.txt")] Sample.online_disk)).
  - vm_compute. set_solver.
  - intros H. apply elem_of_cons in H as [H|H]; [discriminate|].
    by apply elem_of_nil in H.
Defined.

(** On the sample network the refused login is made of exactly the two
    requests of the login, and the error is the one on the credentials. *)
Lemma download_COSMIC_refused_sample :
  download_COSMIC (Some (mkAccount "user@host" "guess"))
    [("https://cancer.sanger.ac.uk/signatures/SBS.txt",
      "/store/SBS_signatures.txt")] Sample.online_disk
  = (Throw (r_error "Wrong COSMIC username/password"),
     log_transfer (SessionSubmit cosmic_page "user@host")
       (log_transfer (SessionOpen cosmic_page) Sample.online_disk)).
Proof. vm_compute. reflexivity. Qed.

End CosmicSession.

(** ** The transfers of the driver and passenger routines *)

Section SingleTransfer.

Local Abbreviation global_download_file := download_file (only parsing).
Import GenomicDataStorage.



End SingleTransfer.
